(** * Zippy-Archon: the workflow core (error handler, node functions, orchestrator)

    A shallow embedding of
      - iterations/zippy-archon/archon_graph.py   (error_handler_decorator, node functions)
      - iterations/zippy-archon/diagnostic_agent.py, tool_generator_agent.py
      - iterations/zippy-archon/orchestrator.py, archon_server.py
      - iterations/v2-agentic-workflow/diagnostic_agent.py (where it differs)
      - plugins/plugin_manager.py (the copies of iterations/zippy-archon and
        agentic-workflow)

    Python values are modelled as the code uses them: [str] as [string],
    a character being a code point below 256 (on these [lower], [isspace]
    and [strip] are as in Python), unbounded [int] as [Z], the
    [error_retries] dict as a
    [gmap string Z], a key of the state dict that may be missing as an
    [option].  Calls that leave the process (language-model agents, the file
    system, the plugin loader) are answered by an arbitrary environment
    [env], a function of the history of such calls. *)

From Stdlib Require Import ZArith String Ascii List Bool Lia.
From stdpp Require Import base gmap strings list.
Import ListNotations.

Local Open Scope string_scope.
Local Open Scope list_scope.
Local Open Scope Z_scope.

(** ** Strings *)

Module PyStr.

Definition LF : string := String (ascii_of_nat 10) EmptyString.

(** [c.lower()] for one character: the upper-case letters below 256 are
    A-Z and 192-222 without the multiplication sign 215, each 32 below its
    lower-case form. *)
Definition lower_char (c : ascii) : ascii :=
  let n := nat_of_ascii c in
  if (((65 <=? n) && (n <=? 90))
      || ((192 <=? n) && (n <=? 222) && negb (n =? 215)))%nat
  then ascii_of_nat (n + 32) else c.

(** [s.lower()] *)
Fixpoint lower (s : string) : string :=
  match s with
  | EmptyString => EmptyString
  | String c t => String (lower_char c) (lower t)
  end.

(** [needle in hay] *)
Fixpoint contains (needle hay : string) : bool :=
  String.prefix needle hay ||
  match hay with
  | EmptyString => false
  | String _ t => contains needle t
  end.

(** What [in] decides: [hay] is [a + needle + b] for some [a], [b]. *)
Definition substring_of (needle hay : string) : Prop :=
  exists a b, hay = a +:+ needle +:+ b.

(** [hay] contains [needle] up to the case of its letters: some text with
    the lower-case form [needle] occurs in [hay]. *)
Definition contains_ignoring_case (needle hay : string) : Prop :=
  exists variant, lower variant = needle /\ substring_of variant hay.

(** [c.isspace()] for one character below 256: tab, LF, VT, FF, CR, FS, GS,
    RS, US, space, NEL (133) and the no-break space (160). *)
Definition isspace (c : ascii) : bool :=
  let n := nat_of_ascii c in
  (((9 <=? n) && (n <=? 13)) || ((28 <=? n) && (n <=? 32))
   || (n =? 133) || (n =? 160))%nat.

Fixpoint lstrip (s : string) : string :=
  match s with
  | EmptyString => EmptyString
  | String c t => if isspace c then lstrip t else s
  end.

Fixpoint rstrip (s : string) : string :=
  match s with
  | EmptyString => EmptyString
  | String c t =>
      match rstrip t with
      | EmptyString => if isspace c then EmptyString else String c EmptyString
      | r => String c r
      end
  end.

(** [s.strip()] *)
Definition strip (s : string) : string := rstrip (lstrip s).

(** Python truthiness of a [str]. *)
Definition truthy (s : string) : bool :=
  match s with EmptyString => false | _ => true end.

(** Every character is white space (the empty string included). *)
Fixpoint blank (s : string) : bool :=
  match s with
  | EmptyString => true
  | String c t => isspace c && blank t
  end.

(** [sep.join(l)] *)
Fixpoint join (sep : string) (l : list string) : string :=
  match l with
  | [] => EmptyString
  | [x] => x
  | x :: t => x +:+ sep +:+ join sep t
  end.

(** [s.endswith(suffix)] *)
Fixpoint endswith (s suffix : string) : bool :=
  if String.eqb s suffix then true
  else match s with
       | EmptyString => false
       | String _ t => endswith t suffix
       end.

(** [s[:-n]] for [n > 0] *)
Definition drop_last (n : nat) (s : string) : string :=
  String.substring 0 (String.length s - n) s.

(** [s.replace(old, new)] for one-character [old] and [new]. *)
Fixpoint replace_char (old new : ascii) (s : string) : string :=
  match s with
  | EmptyString => EmptyString
  | String c t => String (if Ascii.eqb c old then new else c) (replace_char old new t)
  end.

End PyStr.

(** [l[-n:]] for [n > 0]: the last [n] items, or all of [l] when it is shorter. *)
Definition last_n {A} (n : nat) (l : list A) : list A :=
  skipn (length l - n)%nat l.

(** ** Exceptions and results *)

(** A raised exception (of class [Exception]), as the handlers read it:
    [str(e)] and [traceback.format_exc()]. *)
Record Exn := mkExn { exn_str : string; exn_trace : string }.

Inductive Res (A : Type) : Type :=
| Returns (a : A)
| Raises (e : Exn).
Arguments Returns {A} a.
Arguments Raises {A} e.

(** ** State *)

(** Values found in the dicts that node functions return. *)
Inductive Val :=
| VStr (s : string)
| VList (l : list string).

(** What a node function returns: a routing label ([str]) or a partial
    state update ([dict]). *)
Inductive RetVal :=
| RetLabel (s : string)
| RetDict (d : gmap string Val).

(** [AgentState]: a dict; the first three keys are always set by
    [start_flow], the others may be missing.  No code sets [error_log] or
    [error_retries] to [None], so a key is either missing or holds a list
    or dict. *)
Record AgentState := mkAgentState {
  latest_user_message : string;
  messages : list string;
  scope : string;
  error_log : option (list string);
  error_retries : option (gmap string Z);
  generated_code : option string;
  tool_creation_status : option string;
  diagnostic_feedback : option string
}.

Definition set_error_log (l : list string) (s : AgentState) : AgentState :=
  mkAgentState (latest_user_message s) (messages s) (scope s) (Some l)
    (error_retries s) (generated_code s) (tool_creation_status s) (diagnostic_feedback s).

Definition set_error_retries (m : gmap string Z) (s : AgentState) : AgentState :=
  mkAgentState (latest_user_message s) (messages s) (scope s) (error_log s)
    (Some m) (generated_code s) (tool_creation_status s) (diagnostic_feedback s).

(** [state.get("error_log", [])] and [state["error_retries"].get(name, 0)]. *)
Definition log_of (s : AgentState) : list string := default [] (error_log s).
Definition retries_map (s : AgentState) : gmap string Z := default ∅ (error_retries s).
Definition retries_of (s : AgentState) (name : string) : Z :=
  default 0 (retries_map s !! name).

(** ** The outside world *)

Inductive Agent :=
| reasoner | router_agent | end_conversation_agent
| diagnostic_agent | tool_generator_agent.

Inductive Event :=
| AgentRun (a : Agent) (prompt : string)
| FileWrite (path content : string)
| LoadPlugins (dir : string).

(** The environment answers a call from the history of earlier calls. *)
Definition Env := list Event -> Event -> Res string.

(** A computation that talks to the outside world; the history grows by
    one entry per call. *)
Definition Action (A : Type) := Env -> list Event -> Res A * list Event.

Definition ret {A} (a : A) : Action A := fun _ h => (Returns a, h).

Definition bind {A B} (m : Action A) (k : A -> Action B) : Action B :=
  fun env h =>
    match m env h with
    | (Returns a, h') => k a env h'
    | (Raises e, h') => (Raises e, h')
    end.

Definition perform (ev : Event) : Action string :=
  fun env h => (env h ev, h ++ [ev]).

(** [try: m  except Exception as e: handler e] *)
Definition try_except {A} (m : Action A) (handler : Exn -> Action A) : Action A :=
  fun env h =>
    match m env h with
    | (Returns a, h') => (Returns a, h')
    | (Raises e, h') => handler e env h'
    end.

Notation "'let*' x ':=' m 'in' k" := (bind m (fun x => k))
  (at level 10, x name, m at level 100, k at level 200).

(** A node function reads the state and returns a label or an update. *)
Definition Step := AgentState -> Action RetVal.

(** The history together with the list of node functions the error handler
    has awaited so far (a ghost record, used to count invocations). *)
Record World := mkWorld { history : list Event; awaited : list string }.

(** ** archon_graph.py: error_handler_decorator *)

Definition reroute_to_diagnose : RetVal :=
  RetDict {[ "__route__" := VStr "diagnose_errors" ]}.

(** f"Error in node '{node_name}': {str(e)}\nTraceback:\n{trace}" *)
Definition error_message (node_name : string) (e : Exn) : string :=
  "Error in node '" +:+ node_name +:+ "': " +:+ exn_str e +:+ PyStr.LF
    +:+ "Traceback:" +:+ PyStr.LF +:+ exn_trace e.

(** if "error_log" not in state: state["error_log"] = []
    if "error_retries" not in state: state["error_retries"] = {} *)
Definition ensure_error_fields (state : AgentState) : AgentState :=
  let state := match error_log state with None => set_error_log [] state | Some _ => state end in
  match error_retries state with None => set_error_retries ∅ state | Some _ => state end.

(** The [wrapper] built by [error_handler_decorator(node_name, max_retries)(func)]:
    one call of it, on [state], in world [w]. *)
Definition error_handler_decorator (node_name : string) (max_retries : Z) (func : Step)
    (env : Env) (state : AgentState) (w : World) : Res RetVal * AgentState * World :=
  let state := ensure_error_fields state in
  let attempt := retries_of state node_name in
  let '(r, h) := func state env (history w) in
  let w' := mkWorld h (awaited w ++ [node_name]) in
  match r with
  | Returns result =>
      (Returns result, set_error_retries (<[node_name := 0]> (retries_map state)) state, w')
  | Raises e =>
      let state := set_error_log (log_of state ++ [error_message node_name e]) state in
      let attempt := attempt + 1 in
      let state := set_error_retries (<[node_name := attempt]> (retries_map state)) state in
      if attempt >=? max_retries
      then (Returns reroute_to_diagnose, state, w')
      else (Raises e, state, w')
  end.

(** A node function used without the decorator. *)
Definition undecorated (func : Step)
    (env : Env) (state : AgentState) (w : World) : Res RetVal * AgentState * World :=
  let '(r, h) := func state env (history w) in (r, state, mkWorld h (awaited w)).

(** ** archon_graph.py: node functions

    [f_func] is the function as written; [f] is what the module binds the
    name to, [error_handler_decorator(...)(f_func)]. *)

Definition define_scope_with_reasoner_func : Step := fun state =>
  let user_input := latest_user_message state in
  let* result := perform (AgentRun reasoner
      ("Analyze user request: " +:+ user_input +:+ PyStr.LF
         +:+ "Return a scope for building a Pydantic AI agent.")) in
  ret (RetDict {[ "scope" := VStr result ]}).

Definition coder_agent_func : Step := fun state =>
  ret (RetDict {[ "messages" := VList [] ]}).

(** The three-way test at the end of [route_user_message]. *)
Definition route_label (user_msg : string) : string :=
  if PyStr.contains "finish" user_msg then "finish_conversation"
  else if PyStr.contains "create tool" user_msg || PyStr.contains "new plugin" user_msg
       then "create_tool"
       else "coder_agent".

Definition route_user_message_func : Step := fun state =>
  let user_msg := PyStr.lower (latest_user_message state) in
  let* result := perform (AgentRun router_agent user_msg) in
  ret (RetLabel (route_label user_msg)).

Definition finish_conversation_func : Step := fun state =>
  let user_msg := latest_user_message state in
  let* result := perform (AgentRun end_conversation_agent
      ("User last message: " +:+ user_msg +:+ PyStr.LF +:+ "Please say goodbye.")) in
  ret (RetDict {[ "messages" := VList [result] ]}).

Definition define_scope_with_reasoner :=
  error_handler_decorator "define_scope_with_reasoner" 2 define_scope_with_reasoner_func.
Definition coder_agent :=
  error_handler_decorator "coder_agent" 2 coder_agent_func.
Definition route_user_message :=
  error_handler_decorator "route_user_message" 1 route_user_message_func.
Definition finish_conversation :=
  error_handler_decorator "finish_conversation" 1 finish_conversation_func.

(** ** diagnostic_agent.py *)

Definition diagnostic_failure (e : Exn) : string :=
  "Diagnostic Agent failed: " +:+ exn_str e +:+ PyStr.LF
    +:+ "Traceback:" +:+ PyStr.LF +:+ exn_trace e.

(** The body shared by the two iterations; they differ in the fixed
    message and in the text around the summary. *)
Definition diagnose_with (no_errors : string) (make_prompt : string -> string) : Step :=
  fun state =>
    let error_log := log_of state in
    match error_log with
    | [] => ret (RetDict {[ "diagnostic_feedback" := VStr no_errors ]})
    | _ :: _ =>
        let error_summary := PyStr.join (PyStr.LF +:+ PyStr.LF) (last_n 3 error_log) in
        let prompt := make_prompt error_summary in
        try_except
          (let* result := perform (AgentRun diagnostic_agent prompt) in
           ret (RetDict {[ "diagnostic_feedback" := VStr result ]}))
          (fun e => ret (RetDict {[ "diagnostic_feedback" := VStr (diagnostic_failure e) ]}))
    end.

Definition diagnose_prompt (error_summary : string) : string :=
  PyStr.LF +:+ "System encountered repeated errors:" +:+ PyStr.LF +:+ PyStr.LF
    +:+ error_summary +:+ PyStr.LF +:+ PyStr.LF
    +:+ "Please analyze these and propose possible reasons/fixes." +:+ PyStr.LF +:+ "    ".

(** iterations/zippy-archon/diagnostic_agent.py *)
Definition diagnose_errors : Step :=
  diagnose_with "No errors found to diagnose." diagnose_prompt.

Module V2.

Definition diagnose_prompt (error_summary : string) : string :=
  PyStr.LF +:+ "The system has encountered repeated errors:" +:+ PyStr.LF +:+ PyStr.LF
    +:+ error_summary +:+ PyStr.LF +:+ PyStr.LF
    +:+ "Please analyze these errors and suggest possible reasons, fixes, " +:+ PyStr.LF
    +:+ "or additional clarifications that might help resolve them." +:+ PyStr.LF +:+ "    ".

(** iterations/v2-agentic-workflow/diagnostic_agent.py *)
Definition diagnose_errors : Step :=
  diagnose_with "No errors to diagnose." diagnose_prompt.

End V2.

(** ** tool_generator_agent.py *)

Definition generate_tool_code : Step := fun state =>
  let user_req := latest_user_message state in
  let prompt :=
    PyStr.LF +:+ "User request: " +:+ user_req +:+ PyStr.LF +:+ PyStr.LF
      +:+ "Generate a Python plugin that implements a class with 'name', 'description', and 'run(...)'."
      +:+ PyStr.LF in
  let* result := perform (AgentRun tool_generator_agent prompt) in
  ret (RetDict {[ "generated_code" := VStr result ]}).

Definition finalize_new_tool : Step := fun state =>
  let code := default "" (generated_code state) in
  if negb (PyStr.truthy (PyStr.strip code))
  then ret (RetDict {[ "tool_creation_status" := VStr "No code generated." ]})
  else
    let file_name := "tool_generated.py" in
    let file_path := "plugins" +:+ "/" +:+ file_name in
    let* _ := perform (FileWrite file_path code) in
    let* _ := perform (LoadPlugins "plugins") in
    ret (RetDict {[ "tool_creation_status" := VStr ("Plugin created: " +:+ file_name) ]}).

(** ** orchestrator.py *)

(** What [graph.run] is handed: the initial state dict by [start_flow],
    the bare user message by [resume_flow]. *)
Inductive RunInput :=
| InState (s : AgentState)
| InMessage (m : string).

(** The dict literal of [start_flow]. *)
Definition initial_state (user_message : string) : AgentState :=
  mkAgentState user_message [] "" (Some []) (Some ∅) None None None.

Module Orchestrator.
Section Methods.
(** The compiled graph (with its [MemorySaver]) and its [run] method
    belong to the graph framework, not to this repository: [run] is any
    function of the graph object and its argument, returning or raising
    and leaving the graph object in a new condition. *)
Context {Graph RunValue : Type}.
Variable graph_run : Graph -> RunInput -> Res RunValue * Graph.

Definition start_flow (self : Graph) (user_message : string) : Res RunValue * Graph :=
  let initial_state := initial_state user_message in
  graph_run self (InState initial_state).

Definition resume_flow (self : Graph) (user_message : string) : Res RunValue * Graph :=
  graph_run self (InMessage user_message).
End Methods.
End Orchestrator.

(** ** archon_server.py *)

Module Server.
Section Handlers.
Context {Graph RunValue GraphState : Type}.
Variable graph_run : Graph -> RunInput -> Res RunValue * Graph.
(** [Orchestrator()]: a new graph with an empty checkpointer, or the
    exception that building it raises. *)
Variable new_orchestrator : Res Graph.
(** [orchestrators[session_id].graph.state], or the exception that reading
    it raises. *)
Variable graph_state : Graph -> Res GraphState.
(** [str(result)] *)
Variable py_str : RunValue -> string.

(** The JSON body of a request; either key may be missing. *)
Record Request := mkRequest {
  req_user_message : option string;
  req_session_id : option string
}.

Record Response := mkResponse {
  resp_result : string;
  resp_state : GraphState;
  resp_session_id : string
}.

(** if session_id not in orchestrators:
        orchestrators[session_id] = Orchestrator()
    The Orchestrator that serves the request, or the exception of
    [Orchestrator()]. *)
Definition serving (orchestrators : gmap string Graph) (session_id : string) : Res Graph :=
  match orchestrators !! session_id with
  | Some o => Returns o
  | None => new_orchestrator
  end.

(** The shared shape of the two handlers: look the session up, create its
    Orchestrator when there is none, call [method] on it, read the state of
    its graph.  An exception of any of these calls leaves the handler at
    that point; the session map keeps what was stored until then.  The
    Orchestrator is an object that [method] changes in place: its new
    condition is what the map holds afterwards. *)
Definition handle (method : Graph -> string -> Res RunValue * Graph)
    (orchestrators : gmap string Graph) (data : Request)
    : Res Response * gmap string Graph :=
  let user_message := default "" (req_user_message data) in
  let session_id := default "default" (req_session_id data) in
  match serving orchestrators session_id with
  | Raises e => (Raises e, orchestrators)
  | Returns orchestrator =>
      let '(result, orchestrator') := method orchestrator user_message in
      let orchestrators := <[session_id := orchestrator']> orchestrators in
      match result with
      | Raises e => (Raises e, orchestrators)
      | Returns result =>
          match graph_state orchestrator' with
          | Raises e => (Raises e, orchestrators)
          | Returns final_state =>
              (Returns (mkResponse (py_str result) final_state session_id), orchestrators)
          end
      end
  end.

Definition start_flow := handle (Orchestrator.start_flow graph_run).
Definition resume_flow := handle (Orchestrator.resume_flow graph_run).

Definition reset_session (orchestrators : gmap string Graph) (data : Request)
    : gmap string Graph :=
  let session_id := default "default" (req_session_id data) in
  delete session_id orchestrators.
End Handlers.
End Server.

(** ** orchestrator.py: the graph of [_build_graph] *)

Definition NodeFn := Env -> AgentState -> World -> Res RetVal * AgentState * World.

(** A node either runs a function or, like [get_next_user_message], calls
    [interrupt] and waits for the next user message. *)
Inductive NodeImpl :=
| Runs (f : NodeFn)
| Interrupts (key : string).

Record StateGraph := mkStateGraph {
  nodes : gmap string NodeImpl;
  edges : gmap string string;
  conditional_edges : gmap string (NodeFn * gmap string string);
  dynamic_route : option string
}.

Definition START : string := "__start__".
Definition END : string := "__end__".

Definition build_graph : StateGraph :=
  let nodes : gmap string NodeImpl :=
    <["define_scope_with_reasoner" := Runs define_scope_with_reasoner]> $
    <["coder_agent" := Runs coder_agent]> $
    <["get_next_user_message" := Interrupts "latest_user_message"]> $
    <["finish_conversation" := Runs finish_conversation]> $
    <["diagnose_errors" := Runs (undecorated diagnose_errors)]> $
    <["generate_tool_code" := Runs (undecorated generate_tool_code)]> $
    <["finalize_new_tool" := Runs (undecorated finalize_new_tool)]> ∅ in
  let edges : gmap string string :=
    <[START := "define_scope_with_reasoner"]> $
    <["define_scope_with_reasoner" := "coder_agent"]> $
    <["coder_agent" := "get_next_user_message"]> $
    <["finish_conversation" := END]> $
    <["diagnose_errors" := END]> $
    <["generate_tool_code" := "finalize_new_tool"]> $
    <["finalize_new_tool" := END]> ∅ in
  let mapping : gmap string string :=
    <["coder_agent" := "coder_agent"]> $
    <["finish_conversation" := "finish_conversation"]> $
    <["create_tool" := "generate_tool_code"]> ∅ in
  mkStateGraph nodes edges
    {[ "get_next_user_message" := (route_user_message, mapping) ]}
    (Some "__route__").

(** Merging a returned dict into the state: [messages] carries the reducer
    [lambda x, y: x + y]; every other key is overwritten. *)
Definition merge_update (state : AgentState) (d : gmap string Val) : AgentState :=
  mkAgentState
    (match d !! "latest_user_message" with Some (VStr v) => v | _ => latest_user_message state end)
    (match d !! "messages" with Some (VList v) => messages state ++ v | _ => messages state end)
    (match d !! "scope" with Some (VStr v) => v | _ => scope state end)
    (match d !! "error_log" with Some (VList v) => Some v | _ => error_log state end)
    (error_retries state)
    (match d !! "generated_code" with Some (VStr v) => Some v | _ => generated_code state end)
    (match d !! "tool_creation_status" with Some (VStr v) => Some v | _ => tool_creation_status state end)
    (match d !! "diagnostic_feedback" with Some (VStr v) => Some v | _ => diagnostic_feedback state end).

(** ** Graph traversal *)

Module Traversal.

Inductive Position :=
| AtNode (name : string)
| AtBranch (source : string).

Inductive Outcome :=
| FinalState (s : AgentState)
| SuspendSignal (at_node : string) (s : AgentState)
| RoutingError (label : string) (s : AgentState)
| OutOfFuel (s : AgentState).

(** The result of a traversal, the world it leaves, and the nodes whose
    functions it ran, in order. *)
Record Run := mkRun { outcome : Outcome; world : World; visited : list string }.

Definition dynamic_target (g : StateGraph) (d : gmap string Val) : option string :=
  match dynamic_route g with
  | Some key => match d !! key with Some (VStr target) => Some target | _ => None end
  | None => None
  end.

(** The position after node [name] returned without a dynamic route. *)
Definition successor (g : StateGraph) (name : string) : option Position :=
  match conditional_edges g !! name with
  | Some _ => Some (AtBranch name)
  | None => AtNode <$> (edges g !! name)
  end.

(** Modelled from the spec: the traversal loop of the graph framework
    ([graph.run], section 4.2), which is not part of the repository's
    sources.  END returns the final state; a node that interrupts
    suspends; any other node is executed, a returned [__route__] key
    overrides the node's edge, and otherwise the returned dict is merged
    and the static or conditional edge is followed; a label that is not
    a key of the conditional mapping is a routing error.  Executing a node
    is calling the function that [_build_graph] registered for it.  Where
    the executor of section 4.1 answers Retry, the wrapper of the source
    raises; the same step is then invoked again at once (section 4.1:
    "immediately re-invokes the same step"; section 9: the source relies
    "on an outer framework to re-invoke the same node").  The loop sees
    only that the call raised, so it does the same for a function that
    [_build_graph] registered without the wrapper. *)
Fixpoint traverse (fuel : nat) (g : StateGraph) (env : Env)
    (pos : Position) (state : AgentState) (w : World) (seen : list string) : Run :=
  match fuel with
  | O => mkRun (OutOfFuel state) w seen
  | S fuel =>
      let continue_at (p : option Position) (label : string) state w seen :=
        match p with
        | Some p => traverse fuel g env p state w seen
        | None => mkRun (RoutingError label state) w seen
        end in
      match pos with
      | AtNode name =>
          if decide (name = END) then mkRun (FinalState state) w seen
          else if decide (name = START) then continue_at (successor g name) name state w seen
          else
            match nodes g !! name with
            | None => mkRun (RoutingError name state) w seen
            | Some (Interrupts _) => mkRun (SuspendSignal name state) w seen
            | Some (Runs f) =>
                let '(r, state, w) := f env state w in
                let seen := seen ++ [name] in
                match r with
                | Raises e => traverse fuel g env (AtNode name) state w seen
                | Returns (RetLabel _) => continue_at (successor g name) name state w seen
                | Returns (RetDict d) =>
                    let state := merge_update state d in
                    match dynamic_target g d with
                    | Some target => traverse fuel g env (AtNode target) state w seen
                    | None => continue_at (successor g name) name state w seen
                    end
                end
            end
      | AtBranch source =>
          match conditional_edges g !! source with
          | None => mkRun (RoutingError source state) w seen
          | Some (router, mapping) =>
              let '(r, state, w) := router env state w in
              match r with
              | Raises e => traverse fuel g env (AtBranch source) state w seen
              | Returns (RetLabel label) =>
                  continue_at (AtNode <$> (mapping !! label)) label state w seen
              | Returns (RetDict d) =>
                  let state := merge_update state d in
                  continue_at (AtNode <$> dynamic_target g d) source state w seen
              end
          end
      end
  end.

(** [run(initial_state)]: from START. *)
Definition run (fuel : nat) (g : StateGraph) (env : Env)
    (initial_state : AgentState) (w : World) : Run :=
  traverse fuel g env (AtNode START) initial_state w [].

(** Modelled from the spec: resuming a suspended traversal (section 4.2,
    step 2) sets the key of the interrupting node to the new message and
    goes on at the node's outgoing edge. *)
Definition resume (fuel : nat) (g : StateGraph) (env : Env)
    (at_node : string) (state : AgentState) (new_message : string) (w : World) : Run :=
  match nodes g !! at_node with
  | Some (Interrupts key) =>
      let state := merge_update state {[ key := VStr new_message ]} in
      match successor g at_node with
      | Some p => traverse fuel g env p state w []
      | None => mkRun (RoutingError at_node state) w []
      end
  | _ => mkRun (RoutingError at_node state) w []
  end.

(** The traversal reached END. *)
Definition completes (r : Run) : bool :=
  match outcome r with
  | FinalState _ => true
  | _ => false
  end.

End Traversal.

(** The state a call of the wrapper leaves when [func] returns. *)
Definition after_success (node_name : string) (s : AgentState) : AgentState :=
  let s := ensure_error_fields s in
  set_error_retries (<[node_name := 0]> (retries_map s)) s.

(** The state a call of the wrapper leaves when [func] raises [e]. *)
Definition after_failure (node_name : string) (e : Exn) (s : AgentState) : AgentState :=
  let s := ensure_error_fields s in
  let s' := set_error_log (log_of s ++ [error_message node_name e]) s in
  set_error_retries (<[node_name := retries_of s node_name + 1]> (retries_map s')) s'.

(** The failed invocations a wrapped step has left before the one that
    reroutes: [attempt + 1 >= max_retries] holds at the last of them. *)
Definition failures_left (node_name : string) (max_retries : Z) (s : AgentState) : nat :=
  Z.to_nat (max_retries - retries_of s node_name - 1).

(** ** Callers of the wrapper, used to state properties over several calls *)

(** The caller calls the wrapper again each time it re-raises ("Re-raise to
    let the flow attempt again"), at most [fuel] more times. *)
Fixpoint call_until_return (fuel : nat) (node_name : string) (max_retries : Z)
    (func : Step) (env : Env) (state : AgentState) (w : World)
    : Res RetVal * AgentState * World :=
  match error_handler_decorator node_name max_retries func env state w with
  | (Raises e, state', w') =>
      match fuel with
      | O => (Raises e, state', w')
      | S fuel => call_until_return fuel node_name max_retries func env state' w'
      end
  | returned => returned
  end.

(** A step that raises whatever the state and the history are. *)
Definition always_fails (func : Step) (env : Env) : Prop :=
  forall state h, exists e h', func state env h = (Raises e, h').

(** One call of a decorated node function, as a run makes it. *)
Record Call := mkCall { call_name : string; call_max_retries : Z; call_func : Step }.

(** A run seen from the state: decorated node functions called one after
    the other on the same state, whatever they return. *)
Fixpoint run_calls (calls : list Call) (env : Env) (state : AgentState) (w : World)
    : AgentState * World :=
  match calls with
  | [] => (state, w)
  | c :: rest =>
      let '(_, state', w') :=
        error_handler_decorator (call_name c) (call_max_retries c) (call_func c) env state w in
      run_calls rest env state' w'
  end.

(** A run seen from the state, whatever path it takes: a node of the graph
    is executed and the dict it returns is merged, the routing function of a
    conditional edge is called, or a suspended run takes a new user
    message. *)
Inductive RunStep :=
| ExecNode (name : string)
| Branch (source : string)
| UserInput (node : string) (message : string).

Definition merge_result (r : Res RetVal) (state : AgentState) : AgentState :=
  match r with
  | Returns (RetDict d) => merge_update state d
  | _ => state
  end.

Definition run_step (g : StateGraph) (env : Env) (step : RunStep)
    (state : AgentState) (w : World) : AgentState * World :=
  match step with
  | ExecNode name =>
      match nodes g !! name with
      | Some (Runs f) => let '(r, state', w') := f env state w in (merge_result r state', w')
      | _ => (state, w)
      end
  | Branch source =>
      match conditional_edges g !! source with
      | Some (router, _) =>
          let '(r, state', w') := router env state w in (merge_result r state', w')
      | None => (state, w)
      end
  | UserInput node message =>
      match nodes g !! node with
      | Some (Interrupts key) => (merge_update state {[ key := VStr message ]}, w)
      | _ => (state, w)
      end
  end.

Fixpoint run_steps (g : StateGraph) (env : Env) (steps : list RunStep)
    (state : AgentState) (w : World) : AgentState * World :=
  match steps with
  | [] => (state, w)
  | step :: rest =>
      let '(state', w') := run_step g env step state w in
      run_steps g env rest state' w'
  end.

(** A node function never returns a dict with the key [error_log]. *)
Definition keeps_log (func : Step) : Prop :=
  forall state env h d h',
    func state env h = (Returns (RetDict d), h') -> d !! "error_log" = None.

(** Running [f] and merging what it returns leaves the log a prefix of the
    new log. *)
Definition log_grows (f : NodeFn) : Prop :=
  forall env state w,
    log_of state `prefix_of`
      log_of (merge_result (fst (fst (f env state w))) (snd (fst (f env state w)))).

(** ** Sample environments and steps *)

Definition boom : Exn := mkExn "boom" "Traceback (most recent call last): ...".

(** Every outside call fails. *)
Definition env_down : Env := fun _ _ => Raises boom.

(** Every outside call succeeds with the same text. *)
Definition env_up : Env := fun _ _ => Returns "ok".

(** Only the tool generator agent fails. *)
Definition env_no_tool_generator : Env := fun _ ev =>
  match ev with
  | AgentRun tool_generator_agent _ => Raises boom
  | _ => Returns "ok"
  end.

(** The first outside call fails, the later ones succeed. *)
Definition env_flaky : Env := fun h _ =>
  match h with
  | [] => Raises boom
  | _ :: _ => Returns "ok"
  end.

Definition fresh_world : World := mkWorld [] [].

(** A graph framework whose [run] takes whatever it is given and returns. *)
Definition accepting_run (g : unit) (x : RunInput) : Res string * unit :=
  (Returns "done", g).

(** What [diagnose_errors] does, for a version with the fixed message
    [no_errors] and the prompt [make_prompt]: it always returns a dict with
    the one key [diagnostic_feedback]; on an empty log the value is the fixed
    message and no call is made; otherwise exactly one call goes to the
    diagnostic agent, on the summary of the last three entries, and the value
    is the agent's answer or, when the agent raises, the failure text. *)
Definition diagnose_contract (no_errors : string) (make_prompt : string -> string)
    (diagnose : Step) : Prop :=
  forall (s : AgentState) (env : Env) (h : list Event),
    (exists feedback h',
       diagnose s env h = (Returns (RetDict {[ "diagnostic_feedback" := VStr feedback ]}), h'))
    /\ (log_of s = [] ->
        diagnose s env h
        = (Returns (RetDict {[ "diagnostic_feedback" := VStr no_errors ]}), h))
    /\ (log_of s <> [] ->
        let prompt :=
          make_prompt (PyStr.join (PyStr.LF +:+ PyStr.LF) (last_n 3 (log_of s))) in
        diagnose s env h
        = (Returns (RetDict {[ "diagnostic_feedback" :=
              VStr match env h (AgentRun diagnostic_agent prompt) with
                   | Returns answer => answer
                   | Raises e => diagnostic_failure e
                   end ]}),
           h ++ [AgentRun diagnostic_agent prompt])).

(** ** plugins/plugin_manager.py *)

(** A tool object: its [name] and [description] attributes; [tool_ident]
    tells two objects apart. *)
Record Tool := mkTool { tool_name : string; tool_description : string; tool_ident : nat }.

(** A member of an imported module, as [inspect] and [hasattr] see it:
    [construct] is the call [obj()], [itself] is [obj] taken as the tool. *)
Record Member := mkMember {
  isclass : bool;
  isfunction : bool;
  has_name : bool;
  has_description : bool;
  has_run : bool;
  construct : Res Tool;
  itself : Tool
}.

(** What the loader raises: the [ValueError] that [register_tool] builds,
    or an exception of a call it makes ([os.listdir], [import_module],
    [obj()]).  [Foreign e] is such an exception whatever its class, a
    [ValueError] of the callee included; [ValueError message] is only the
    one of [register_tool]. *)
Inductive PluginExn :=
| ValueError (message : string)
| Foreign (e : Exn).

Inductive Status :=
| Done
| Raise (e : PluginExn).

(** The directory and the modules behind it. *)
Record PluginFiles := mkPluginFiles {
  listdir : string -> Res (list string);
  import_module : string -> Res (list (string * Member))
}.

(** f"Tool '{tool.name}' is already registered." *)
Definition already_registered (name : string) : PluginExn :=
  ValueError ("Tool '" +:+ name +:+ "' is already registered.").

(** [register_tool], the same in both copies of plugin_manager.py (the
    global [TOOLS_REGISTRY] is passed in and returned). *)
Definition register_tool (tool : Tool) (TOOLS_REGISTRY : gmap string Tool)
    : Status * gmap string Tool :=
  match TOOLS_REGISTRY !! tool_name tool with
  | Some _ => (Raise (already_registered (tool_name tool)), TOOLS_REGISTRY)
  | None => (Done, <[tool_name tool := tool]> TOOLS_REGISTRY)
  end.

(** [get_tool_by_name]: [TOOLS_REGISTRY.get(name)] *)
Definition get_tool_by_name (name : string) (TOOLS_REGISTRY : gmap string Tool)
    : option Tool :=
  TOOLS_REGISTRY !! name.

(** The loop over the members of one module: [select] tells which members
    are registered, and with which tool. *)
Fixpoint register_members (select : Member -> option (Res Tool))
    (members : list (string * Member)) (TOOLS_REGISTRY : gmap string Tool)
    : Status * gmap string Tool :=
  match members with
  | [] => (Done, TOOLS_REGISTRY)
  | (_, obj) :: rest =>
      match select obj with
      | None => register_members select rest TOOLS_REGISTRY
      | Some (Raises e) => (Raise (Foreign e), TOOLS_REGISTRY)
      | Some (Returns tool) =>
          match register_tool tool TOOLS_REGISTRY with
          | (Done, registry) => register_members select rest registry
          | failed => failed
          end
      end
  end.

(** The loop over the file names of the directory.  Returns also the
    module paths handed to [importlib.import_module], in order. *)
Fixpoint load_files (files : PluginFiles) (excluded : list string)
    (module_path : string -> string) (select : Member -> option (Res Tool))
    (filenames : list string) (TOOLS_REGISTRY : gmap string Tool) (imported : list string)
    : Status * gmap string Tool * list string :=
  match filenames with
  | [] => (Done, TOOLS_REGISTRY, imported)
  | filename :: rest =>
      if negb (PyStr.endswith filename ".py")
      then load_files files excluded module_path select rest TOOLS_REGISTRY imported
      else if bool_decide (filename ∈ excluded)
      then load_files files excluded module_path select rest TOOLS_REGISTRY imported
      else
        let module_name := PyStr.drop_last 3 filename in
        let path := module_path module_name in
        match import_module files path with
        | Raises e => (Raise (Foreign e), TOOLS_REGISTRY, imported ++ [path])
        | Returns members =>
            match register_members select members TOOLS_REGISTRY with
            | (Done, registry) =>
                load_files files excluded module_path select rest registry (imported ++ [path])
            | (Raise e, registry) => (Raise e, registry, imported ++ [path])
            end
        end
  end.

Definition load_with (files : PluginFiles) (excluded : list string)
    (module_path : string -> string) (select : Member -> option (Res Tool))
    (plugins_dir : string) (TOOLS_REGISTRY : gmap string Tool)
    : Status * gmap string Tool * list string :=
  match listdir files plugins_dir with
  | Raises e => (Raise (Foreign e), TOOLS_REGISTRY, [])
  | Returns filenames =>
      load_files files excluded module_path select filenames TOOLS_REGISTRY []
  end.

(** iterations/zippy-archon/plugins/plugin_manager.py *)
Module ZippyArchonPlugins.

Definition excluded : list string := ["__init__.py"; "plugin_manager.py"].

(** if hasattr(obj, "name") and hasattr(obj, "run"):
        instance = obj() if inspect.isclass(obj) else obj *)
Definition select (obj : Member) : option (Res Tool) :=
  if has_name obj && has_run obj
  then Some (if isclass obj then construct obj else Returns (itself obj))
  else None.

Definition load_plugins (files : PluginFiles) (plugins_dir : string)
    (TOOLS_REGISTRY : gmap string Tool) : Status * gmap string Tool * list string :=
  load_with files excluded (fun module_name => "plugins." +:+ module_name) select
    plugins_dir TOOLS_REGISTRY.

End ZippyArchonPlugins.

(** agentic-workflow/plugins/plugin_manager.py *)
Module AgenticPlugins.

Definition excluded : list string := ["__init__.py"; "plugin_manager.py"].

(** Classes and functions with the attributes [name], [description] and
    [run]; a class is instantiated; a tool whose name is falsy is skipped. *)
Definition select (obj : Member) : option (Res Tool) :=
  if isclass obj || isfunction obj
  then
    if has_name obj && has_description obj && has_run obj
    then
      match (if isclass obj then construct obj else Returns (itself obj)) with
      | Raises e => Some (Raises e)
      | Returns tool_instance =>
          if negb (PyStr.truthy (tool_name tool_instance)) then None
          else Some (Returns tool_instance)
      end
    else None
  else None.

Definition load_plugins (files : PluginFiles) (plugins_dir : string)
    (TOOLS_REGISTRY : gmap string Tool) : Status * gmap string Tool * list string :=
  load_with files excluded
    (fun module_name =>
       PyStr.replace_char "/" "." plugins_dir +:+ "." +:+ module_name)
    select plugins_dir TOOLS_REGISTRY.

End AgenticPlugins.

(** The two copies of plugin_manager.py, to state what they share. *)
Inductive Copy :=
| ZippyArchon
| AgenticWorkflow.

Definition excluded_of (copy : Copy) : list string :=
  match copy with
  | ZippyArchon => ZippyArchonPlugins.excluded
  | AgenticWorkflow => AgenticPlugins.excluded
  end.

Definition select_of (copy : Copy) : Member -> option (Res Tool) :=
  match copy with
  | ZippyArchon => ZippyArchonPlugins.select
  | AgenticWorkflow => AgenticPlugins.select
  end.

(** The argument of [importlib.import_module] for the file [module_name].py *)
Definition module_path_of (copy : Copy) (plugins_dir module_name : string) : string :=
  match copy with
  | ZippyArchon => "plugins." +:+ module_name
  | AgenticWorkflow => PyStr.replace_char "/" "." plugins_dir +:+ "." +:+ module_name
  end.

Definition load_plugins_of (copy : Copy)
    : PluginFiles -> string -> gmap string Tool -> Status * gmap string Tool * list string :=
  match copy with
  | ZippyArchon => ZippyArchonPlugins.load_plugins
  | AgenticWorkflow => AgenticPlugins.load_plugins
  end.

(** The file names of a listing that the loader imports. *)
Definition plugin_files (excluded filenames : list string) : list string :=
  filter (fun filename =>
            PyStr.endswith filename ".py" = true /\ filename ∉ excluded) filenames.

(** Every tool of the registry is stored under its own name. *)
Definition keyed_by_name (TOOLS_REGISTRY : gmap string Tool) : Prop :=
  forall name tool, get_tool_by_name name TOOLS_REGISTRY = Some tool -> tool_name tool = name.

(** A class that has the attributes of a tool and an empty [name]. *)
Definition unnamed_tool : Tool := mkTool "" "A tool without a name." 2.

Definition unnamed_files : PluginFiles :=
  mkPluginFiles
    (fun _ => Returns ["unnamed.py"])
    (fun _ => Returns [("Unnamed", mkMember true false true true true
                                     (Returns unnamed_tool) unnamed_tool)]).

(** A directory with the example plugin and two files that are skipped. *)
Definition echo_tool : Tool := mkTool "echo_tool" "Echoes the text back to the user." 1.

Definition sample_files : PluginFiles :=
  mkPluginFiles
    (fun _ => Returns ["__init__.py"; "notes.txt"; "plugin_manager.py"; "tool_example.py"])
    (fun path =>
       if String.eqb path "plugins.tool_example"
       then Returns [("EchoTool", mkMember true false true true true (Returns echo_tool)
                                    echo_tool)]
       else Raises boom).

(** ** Notions used to state what a run keeps *)

(** Every counter of [error_retries] is non-negative. *)
Definition counters_nonneg (s : AgentState) : Prop :=
  forall name, 0 <= retries_of s name.

(** The node functions that carry the decorator in archon_graph.py. *)
Definition decorated_names : list string :=
  ["define_scope_with_reasoner"; "coder_agent"; "route_user_message"; "finish_conversation"].

(** The functions a run of the graph calls: the function of a node, or the
    routing function of the conditional edge, under the name it is defined
    with. *)
Definition graph_step (name : string) (f : NodeFn) : Prop :=
  nodes build_graph !! name = Some (Runs f)
  \/ (name = "route_user_message"
      /\ exists source mapping, conditional_edges build_graph !! source = Some (f, mapping)).

(** Only decorated node functions have a counter. *)
Definition counters_decorated (s : AgentState) : Prop :=
  forall name, is_Some (retries_map s !! name) -> name ∈ decorated_names.

(** Whatever the node function returns is a dict with the single key [key]. *)
Definition returns_key (key : string) (func : Step) : Prop :=
  forall state env h r h',
    func state env h = (Returns r, h') -> exists v, r = RetDict {[ key := v ]}.

(** The fields other than [error_log] and [error_retries] agree. *)
Definition same_payload (s s' : AgentState) : Prop :=
  latest_user_message s' = latest_user_message s
  /\ messages s' = messages s
  /\ scope s' = scope s
  /\ generated_code s' = generated_code s
  /\ tool_creation_status s' = tool_creation_status s
  /\ diagnostic_feedback s' = diagnostic_feedback s.

(** The key of the dict that the function of a node returns. *)
Definition produced_key (node : string) : string :=
  if decide (node = "define_scope_with_reasoner") then "scope"
  else if decide (node = "coder_agent") then "messages"
  else if decide (node = "finish_conversation") then "messages"
  else if decide (node = "diagnose_errors") then "diagnostic_feedback"
  else if decide (node = "generate_tool_code") then "generated_code"
  else if decide (node = "finalize_new_tool") then "tool_creation_status"
  else "".

(** A step of a run that brings a new user message. *)
Definition is_user_input (step : RunStep) : bool :=
  match step with
  | UserInput _ _ => true
  | _ => false
  end.

(* ===================================================================== *)
(** * Properties *)
(* ===================================================================== *)

(** ** Strings *)

Lemma append_cons (x : ascii) (a b : string) : String x a +:+ b = String x (a +:+ b).
Proof. reflexivity. Qed.

Lemma append_nil_l (b : string) : "" +:+ b = b.
Proof. reflexivity. Qed.

Lemma append_assoc (a b c : string) : (a +:+ b) +:+ c = a +:+ (b +:+ c).
Proof.
  induction a as [|x a IH]; [reflexivity |].
  rewrite !append_cons. now rewrite IH.
Qed.

Lemma append_nil_r (a : string) : a +:+ "" = a.
Proof.
  induction a as [|x a IH]; [reflexivity |].
  rewrite append_cons. now rewrite IH.
Qed.

Lemma prefix_iff (n h : string) :
  String.prefix n h = true <-> exists b, h = n +:+ b.
Proof.
  revert n. induction h as [|y h IH]; intros [|x n]; simpl.
  - split; [exists ""; reflexivity | reflexivity].
  - split; [discriminate | intros [b Hb]; rewrite append_cons in Hb; discriminate].
  - split; [intros _; eexists; rewrite append_nil_l; reflexivity | reflexivity].
  - destruct (ascii_dec x y) as [->|Hne].
    + rewrite IH. split; intros [b Hb]; exists b.
      * rewrite append_cons. congruence.
      * rewrite append_cons in Hb. congruence.
    + split; [discriminate | intros [b Hb]; rewrite append_cons in Hb; congruence].
Qed.

Lemma contains_iff (n h : string) :
  PyStr.contains n h = true <-> PyStr.substring_of n h.
Proof.
  unfold PyStr.substring_of. induction h as [|y h IH].
  - cbn [PyStr.contains]. rewrite orb_false_r, prefix_iff. split.
    + intros [b Hb]. exists "", b. exact Hb.
    + intros ([|x a] & b & Hab).
      * exists b. exact Hab.
      * rewrite append_cons in Hab. discriminate.
  - cbn [PyStr.contains]. rewrite orb_true_iff, prefix_iff, IH. split.
    + intros [[b Hb] | (a & b & Hab)].
      * exists "", b. exact Hb.
      * exists (String y a), b. rewrite append_cons. now rewrite Hab.
    + intros ([|x a] & b & Hab).
      * left. exists b. exact Hab.
      * right. rewrite append_cons in Hab. exists a, b. congruence.
Qed.

Lemma lower_app (a b : string) : PyStr.lower (a +:+ b) = PyStr.lower a +:+ PyStr.lower b.
Proof.
  induction a as [|x a IH]; [reflexivity |].
  rewrite append_cons. cbn [PyStr.lower]. rewrite append_cons. now rewrite IH.
Qed.

Lemma lower_split (msg x y : string) :
  PyStr.lower msg = x +:+ y ->
  exists m1 m2, msg = m1 +:+ m2 /\ PyStr.lower m1 = x /\ PyStr.lower m2 = y.
Proof.
  revert msg. induction x as [|c x IH]; intros msg H.
  - exists "", msg. repeat split. exact H.
  - destruct msg as [|c0 msg]; [discriminate |].
    rewrite append_cons in H. cbn [PyStr.lower] in H. injection H as Hc Hrest.
    destruct (IH msg Hrest) as (m1 & m2 & -> & H1 & H2).
    exists (String c0 m1), m2. repeat split.
    + cbn [PyStr.lower]. now rewrite Hc, H1.
    + exact H2.
Qed.

(** Looking for [needle] in [msg.lower()] is looking for it in [msg] up to
    the case of the letters. *)
Lemma substring_lower_iff (needle msg : string) :
  PyStr.substring_of needle (PyStr.lower msg) <-> PyStr.contains_ignoring_case needle msg.
Proof.
  split.
  - intros (a & b & H).
    destruct (lower_split _ _ _ H) as (m1 & rest & -> & _ & Hrest).
    destruct (lower_split _ _ _ Hrest) as (v & m2 & -> & Hv & _).
    exists v. split; [exact Hv | exists m1, m2; reflexivity].
  - intros (v & <- & a & b & ->). exists (PyStr.lower a), (PyStr.lower b).
    now rewrite !lower_app.
Qed.

Lemma contains_false_iff (n h : string) :
  PyStr.contains n h = false <-> ~ PyStr.substring_of n h.
Proof. rewrite <- contains_iff. destruct (PyStr.contains n h); split; congruence. Qed.

Lemma lstrip_blank (s : string) : PyStr.blank s = true -> PyStr.lstrip s = "".
Proof.
  induction s as [|c s IH]; simpl; [reflexivity |].
  destruct (PyStr.isspace c); simpl; [exact IH | discriminate].
Qed.

Lemma lstrip_not_blank (s : string) :
  PyStr.blank s = false ->
  exists c t, PyStr.lstrip s = String c t /\ PyStr.isspace c = false.
Proof.
  induction s as [|c s IH]; simpl; [discriminate |].
  destruct (PyStr.isspace c) eqn:Hc; simpl; [exact IH | eauto].
Qed.

Lemma rstrip_keeps_head (c : ascii) (t : string) :
  PyStr.isspace c = false -> PyStr.rstrip (String c t) <> "".
Proof. intros Hc. simpl. rewrite Hc. destruct (PyStr.rstrip t); discriminate. Qed.

(** [not code.strip()] holds exactly for the strings made of white space. *)
Lemma strip_empty_iff (s : string) :
  PyStr.truthy (PyStr.strip s) = false <-> PyStr.blank s = true.
Proof.
  unfold PyStr.strip. destruct (PyStr.blank s) eqn:Hb.
  - rewrite (lstrip_blank s Hb). simpl. tauto.
  - destruct (lstrip_not_blank s Hb) as (c & t & -> & Hc).
    pose proof (rstrip_keeps_head c t Hc) as Hne.
    destruct (PyStr.rstrip (String c t)); [congruence | simpl; split; discriminate].
Qed.

(** ** The error handler: one call *)

Section Wrapper.
Variables (node_name : string) (max_retries : Z) (func : Step) (env : Env).

Lemma log_of_ensure (s : AgentState) : log_of (ensure_error_fields s) = log_of s.
Proof. destruct s as [m ms sc [l|] [r|] g t d]; reflexivity. Qed.

Lemma retries_map_ensure (s : AgentState) :
  retries_map (ensure_error_fields s) = retries_map s.
Proof. destruct s as [m ms sc [l|] [r|] g t d]; reflexivity. Qed.

Lemma retries_of_ensure (s : AgentState) (name : string) :
  retries_of (ensure_error_fields s) name = retries_of s name.
Proof. unfold retries_of. now rewrite retries_map_ensure. Qed.

Lemma wrapper_returns (s : AgentState) (w : World) (v : RetVal) (h' : list Event) :
  func (ensure_error_fields s) env (history w) = (Returns v, h') ->
  error_handler_decorator node_name max_retries func env s w
  = (Returns v, after_success node_name s, mkWorld h' (awaited w ++ [node_name])).
Proof. intros H. unfold error_handler_decorator. now rewrite H. Qed.

Lemma wrapper_raises (s : AgentState) (w : World) (e : Exn) (h' : list Event) :
  func (ensure_error_fields s) env (history w) = (Raises e, h') ->
  error_handler_decorator node_name max_retries func env s w
  = (if retries_of s node_name + 1 >=? max_retries
     then Returns reroute_to_diagnose else Raises e,
     after_failure node_name e s, mkWorld h' (awaited w ++ [node_name])).
Proof.
  intros H. unfold error_handler_decorator. rewrite H.
  rewrite retries_of_ensure.
  destruct (retries_of s node_name + 1 >=? max_retries);
    unfold after_failure; now rewrite retries_of_ensure.
Qed.

Lemma log_after_success (s : AgentState) : log_of (after_success node_name s) = log_of s.
Proof. unfold after_success. cbn. apply log_of_ensure. Qed.

Lemma retries_after_success (s : AgentState) :
  error_retries (after_success node_name s) = Some (<[node_name := 0]> (retries_map s)).
Proof. unfold after_success. cbn. now rewrite retries_map_ensure. Qed.

Lemma log_after_failure (e : Exn) (s : AgentState) :
  log_of (after_failure node_name e s) = log_of s ++ [error_message node_name e].
Proof. unfold after_failure. cbn. now rewrite log_of_ensure. Qed.

Lemma retries_after_failure (e : Exn) (s : AgentState) :
  error_retries (after_failure node_name e s)
  = Some (<[node_name := retries_of s node_name + 1]> (retries_map s)).
Proof.
  unfold after_failure. cbn. rewrite retries_of_ensure.
  f_equal. f_equal. unfold retries_map. cbn. apply retries_map_ensure.
Qed.

Lemma retries_of_after_failure (e : Exn) (s : AgentState) :
  retries_of (after_failure node_name e s) node_name = retries_of s node_name + 1.
Proof.
  unfold retries_of at 1, retries_map. rewrite retries_after_failure. cbn.
  now rewrite lookup_insert_eq.
Qed.

(** Whatever [func] does, one call of the wrapper awaits it once. *)
Lemma wrapper_awaits_once (s : AgentState) (w : World) :
  awaited (snd (error_handler_decorator node_name max_retries func env s w))
  = awaited w ++ [node_name].
Proof.
  destruct (func (ensure_error_fields s) env (history w)) as [[v|e] h'] eqn:H.
  - now rewrite (wrapper_returns _ _ _ _ H).
  - now rewrite (wrapper_raises _ _ _ _ H).
Qed.

(** An always failing step called again and again by the caller: with
    [S k] failures left before the bound, the [S k]-th call reroutes. *)
Lemma exhaust_retries (k : nat) :
  always_fails func env ->
  forall (fuel : nat) (s : AgentState) (w : World),
    retries_of s node_name + Z.of_nat (S k) = max_retries ->
    (k <= fuel)%nat ->
    exists s' w',
      call_until_return fuel node_name max_retries func env s w
      = (Returns reroute_to_diagnose, s', w')
      /\ awaited w' = awaited w ++ repeat node_name (S k)
      /\ error_retries s' = Some (<[node_name := max_retries]> (retries_map s))
      /\ length (log_of s') = (length (log_of s) + S k)%nat.
Proof.
  intros Hfail. induction k as [|k IH]; intros fuel s w Hleft Hfuel.
  - destruct (Hfail (ensure_error_fields s) (history w)) as (e & h' & Hf).
    exists (after_failure node_name e s), (mkWorld h' (awaited w ++ [node_name])).
    assert (Hstep : error_handler_decorator node_name max_retries func env s w
              = (Returns reroute_to_diagnose, after_failure node_name e s,
                 mkWorld h' (awaited w ++ [node_name]))).
    { rewrite (wrapper_raises _ _ _ _ Hf).
      replace (retries_of s node_name + 1 >=? max_retries) with true; [reflexivity |].
      symmetry. apply Z.geb_le. lia. }
    split; [| split; [| split]].
    + destruct fuel; simpl; now rewrite Hstep.
    + reflexivity.
    + rewrite retries_after_failure. do 2 f_equal. lia.
    + rewrite log_after_failure, length_app. reflexivity.
  - destruct (Hfail (ensure_error_fields s) (history w)) as (e & h' & Hf).
    destruct fuel as [|fuel]; [lia |].
    assert (Hstep : error_handler_decorator node_name max_retries func env s w
              = (Raises e, after_failure node_name e s,
                 mkWorld h' (awaited w ++ [node_name]))).
    { rewrite (wrapper_raises _ _ _ _ Hf).
      replace (retries_of s node_name + 1 >=? max_retries) with false; [reflexivity |].
      symmetry. rewrite Z.geb_leb. apply Z.leb_gt. lia. }
    destruct (IH fuel (after_failure node_name e s) (mkWorld h' (awaited w ++ [node_name])))
      as (s' & w' & Hrun & Haw & Hret & Hlog).
    { rewrite retries_of_after_failure. lia. }
    { lia. }
    exists s', w'. split; [| split; [| split]].
    + simpl. rewrite Hstep. exact Hrun.
    + rewrite Haw. cbn [awaited]. rewrite <- app_assoc. reflexivity.
    + rewrite Hret. f_equal. unfold retries_map at 1.
      rewrite retries_after_failure. cbn. apply insert_insert_eq.
    + rewrite Hlog, log_after_failure, length_app. simpl. lia.
Qed.

End Wrapper.

(** ** Retry bound *)

(** C1, as amended: for a step wrapped with [max_retries = n >= 1] whose
    counter is 0 (or missing), if every invocation of the step fails and the
    caller calls the wrapper again each time it re-raises, then the step is
    awaited exactly [n] times, the last call returns
    [{"__route__": "diagnose_errors"}], and [error_retries[node_name]] is
    [n] at that point. *)
Theorem retry_bound (node_name : string) (n : Z) (func : Step) (env : Env)
    (s : AgentState) (w : World) (fuel : nat) :
  1 <= n ->
  retries_of s node_name = 0 ->
  always_fails func env ->
  (Z.to_nat n - 1 <= fuel)%nat ->
  exists s' w',
    call_until_return fuel node_name n func env s w = (Returns reroute_to_diagnose, s', w')
    /\ awaited w' = awaited w ++ repeat node_name (Z.to_nat n)
    /\ retries_map s' !! node_name = Some n.
Proof.
  intros Hn H0 Hfail Hfuel.
  destruct (exhaust_retries node_name n func env (Z.to_nat n - 1) Hfail fuel s w)
    as (s' & w' & Hrun & Haw & Hret & _); [lia | exact Hfuel |].
  exists s', w'. split; [exact Hrun | split].
  - rewrite Haw. do 2 f_equal. lia.
  - unfold retries_map. rewrite Hret. cbn. apply lookup_insert_eq.
Qed.

Lemma retry_bound_witness :
  exists s' w',
    call_until_return 1 "define_scope_with_reasoner" 2 define_scope_with_reasoner_func
      env_down (initial_state "hi") fresh_world
    = (Returns reroute_to_diagnose, s', w')
    /\ awaited w' = awaited fresh_world ++ repeat "define_scope_with_reasoner" (Z.to_nat 2)
    /\ retries_map s' !! "define_scope_with_reasoner" = Some 2.
Proof.
  apply retry_bound.
  - lia.
  - reflexivity.
  - intros state h. eexists _, _. reflexivity.
  - simpl. lia.
Defined.

(** C1, as stated, fails for [max_retries = 0]: the step is awaited once,
    not zero times, and the counter is then 1, not 0.  (And for
    [max_retries = 2] it takes two calls of the wrapper: the first one
    raises.) *)
Lemma retry_bound_counterexample :
  (exists s' w',
     error_handler_decorator "route_user_message" 0 route_user_message_func
       env_down (initial_state "hi") fresh_world
     = (Returns reroute_to_diagnose, s', w')
     /\ awaited w' = ["route_user_message"]
     /\ awaited w' <> repeat "route_user_message" (Z.to_nat 0)
     /\ retries_map s' !! "route_user_message" = Some 1
     /\ retries_map s' !! "route_user_message" <> Some 0)
  /\ fst (fst (error_handler_decorator "define_scope_with_reasoner" 2
                 define_scope_with_reasoner_func env_down (initial_state "hi") fresh_world))
     = Raises boom.
Proof.
  split; [| reflexivity].
  eexists _, _. split; [reflexivity |].
  split; [reflexivity |]. split; [discriminate |].
  split; [vm_compute; reflexivity | vm_compute; discriminate].
Qed.

(** ** Retrying is left to the caller *)

(** C3, as amended: a call of the wrapper awaits the step exactly once; when
    the step fails and the incremented count is still below [max_retries],
    the wrapper records the failure and re-raises the same exception to its
    caller instead of invoking the step again. *)
Theorem failure_below_bound_reraises (node_name : string) (n : Z) (func : Step)
    (env : Env) (s : AgentState) (w : World) :
  awaited (snd (error_handler_decorator node_name n func env s w))
  = awaited w ++ [node_name]
  /\ forall e h',
       func (ensure_error_fields s) env (history w) = (Raises e, h') ->
       retries_of s node_name + 1 < n ->
       error_handler_decorator node_name n func env s w
       = (Raises e, after_failure node_name e s, mkWorld h' (awaited w ++ [node_name]))
       /\ retries_of (after_failure node_name e s) node_name = retries_of s node_name + 1.
Proof.
  split; [apply wrapper_awaits_once |].
  intros e h' Hf Hlt. split.
  - rewrite (wrapper_raises _ _ _ _ _ _ _ _ Hf).
    replace (retries_of s node_name + 1 >=? n) with false; [reflexivity |].
    symmetry. rewrite Z.geb_leb. apply Z.leb_gt. lia.
  - apply retries_of_after_failure.
Qed.

Lemma failure_below_bound_reraises_witness :
  error_handler_decorator "define_scope_with_reasoner" 2 define_scope_with_reasoner_func
    env_down (initial_state "hi") fresh_world
  = (Raises boom,
     after_failure "define_scope_with_reasoner" boom (initial_state "hi"),
     mkWorld
       [AgentRun reasoner
          ("Analyze user request: hi" +:+ PyStr.LF
             +:+ "Return a scope for building a Pydantic AI agent.")]
       (awaited fresh_world ++ ["define_scope_with_reasoner"]))
  /\ retries_of (after_failure "define_scope_with_reasoner" boom (initial_state "hi")) "define_scope_with_reasoner"
     = retries_of (initial_state "hi") "define_scope_with_reasoner" + 1.
Proof.
  apply (proj2 (failure_below_bound_reraises "define_scope_with_reasoner" 2
                  define_scope_with_reasoner_func env_down (initial_state "hi") fresh_world)).
  - reflexivity.
  - vm_compute. reflexivity.
Defined.

(** C3, as stated, fails: with [max_retries = 2], one call of the decorated
    [define_scope_with_reasoner] on a failing reasoner awaits the step once
    and raises; there is no second invocation and no reroute. *)
Lemma local_retry_counterexample :
  exists s',
    define_scope_with_reasoner env_down (initial_state "hi") fresh_world
    = (Raises boom, s',
       mkWorld
         [AgentRun reasoner
            ("Analyze user request: hi" +:+ PyStr.LF
               +:+ "Return a scope for building a Pydantic AI agent.")]
         ["define_scope_with_reasoner"])
    /\ retries_map s' !! "define_scope_with_reasoner" = Some 1.
Proof. eexists. split; [reflexivity | vm_compute; reflexivity]. Qed.

(** ** Reset on success *)

(** The steps of the graph: the four that archon_graph.py defines with
    the decorator, and the three that are registered as they are. *)
Lemma graph_step_cases (name : string) (f : NodeFn) :
  graph_step name f ->
  ((name ∈ decorated_names) /\ exists n func, f = error_handler_decorator name n func)
  \/ ((name ∉ decorated_names) /\ forall env s w, snd (fst (f env s w)) = s).
Proof.
  intros [Hnode | (-> & source & mapping & Hedge)].
  - unfold build_graph in Hnode. cbn [nodes] in Hnode.
    repeat (rewrite lookup_insert in Hnode; case_decide;
            [ first
                [ discriminate Hnode
                | injection Hnode as <-; subst name;
                  first
                    [ left; split;
                      [ apply list_elem_of_In; simpl; tauto | eexists _, _; reflexivity ]
                    | right; split;
                      [ intros Hin; apply list_elem_of_In in Hin; simpl in Hin;
                        intuition discriminate
                      | intros env s w; unfold undecorated;
                        destruct (_ s env (history w)); reflexivity ] ] ]
            | ]).
    rewrite lookup_empty in Hnode. discriminate.
  - unfold build_graph in Hedge. cbn [conditional_edges] in Hedge.
    apply lookup_singleton_Some in Hedge as [_ [= <- _]].
    left. split; [apply list_elem_of_In; simpl; tauto | eexists _, _; reflexivity].
Qed.

(** C6, as amended: whenever the step of the error handler returns, the
    wrapper leaves [error_retries[node_name] = 0], whatever the counter
    was; in particular after a call that failed below the bound and a second
    call that succeeds.  The steps of the graph that carry the wrapper are
    [define_scope_with_reasoner], [coder_agent], [route_user_message] and
    [finish_conversation]; the other three are called as they are and leave
    the state, hence [error_retries], as it was. *)
Theorem success_resets_retries (node_name : string) (n : Z) (func : Step)
    (env : Env) (s : AgentState) (w : World) :
  (forall v h',
     func (ensure_error_fields s) env (history w) = (Returns v, h') ->
     exists s' w',
       error_handler_decorator node_name n func env s w = (Returns v, s', w')
       /\ error_retries s' = Some (<[node_name := 0]> (retries_map s))
       /\ retries_map s' !! node_name = Some 0)
  /\ (forall e h1 v h2,
        func (ensure_error_fields s) env (history w) = (Raises e, h1) ->
        retries_of s node_name + 1 < n ->
        func (ensure_error_fields (after_failure node_name e s)) env h1 = (Returns v, h2) ->
        exists s1 w1 s2 w2,
          error_handler_decorator node_name n func env s w = (Raises e, s1, w1)
          /\ retries_map s1 !! node_name = Some (retries_of s node_name + 1)
          /\ error_handler_decorator node_name n func env s1 w1 = (Returns v, s2, w2)
          /\ retries_map s2 !! node_name = Some 0)
  /\ (forall name f,
        graph_step name f ->
        ((name ∈ decorated_names)
         /\ exists max_retries step, f = error_handler_decorator name max_retries step)
        \/ ((name ∉ decorated_names) /\ forall env' s' w', snd (fst (f env' s' w')) = s')).
Proof.
  split; [| split].
  - intros v h' Hf. eexists _, _. split; [apply wrapper_returns, Hf |].
    rewrite retries_after_success. split; [reflexivity |].
    unfold retries_map at 1. rewrite retries_after_success. cbn.
    apply lookup_insert_eq.
  - intros e h1 v h2 Hf1 Hlt Hf2.
    assert (Hcall1 : error_handler_decorator node_name n func env s w
              = (Raises e, after_failure node_name e s,
                 mkWorld h1 (awaited w ++ [node_name]))).
    { rewrite (wrapper_raises _ _ _ _ _ _ _ _ Hf1).
      replace (retries_of s node_name + 1 >=? n) with false; [reflexivity |].
      symmetry. rewrite Z.geb_leb. apply Z.leb_gt. lia. }
    eexists _, _, _, _. split; [exact Hcall1 |]. split.
    + unfold retries_map. rewrite retries_after_failure. cbn. apply lookup_insert_eq.
    + split; [apply wrapper_returns; exact Hf2 |].
      unfold retries_map at 1. rewrite retries_after_success. cbn.
      apply lookup_insert_eq.
  - intros name f Hstep. exact (graph_step_cases name f Hstep).
Qed.

Lemma success_resets_retries_witness :
  exists s1 w1 s2 w2,
    error_handler_decorator "define_scope_with_reasoner" 2 define_scope_with_reasoner_func
      env_flaky (initial_state "hi") fresh_world
    = (Raises boom, s1, w1)
    /\ retries_map s1 !! "define_scope_with_reasoner"
       = Some (retries_of (initial_state "hi") "define_scope_with_reasoner" + 1)
    /\ error_handler_decorator "define_scope_with_reasoner" 2 define_scope_with_reasoner_func
         env_flaky s1 w1
       = (Returns (RetDict {[ "scope" := VStr "ok" ]}), s2, w2)
    /\ retries_map s2 !! "define_scope_with_reasoner" = Some 0.
Proof.
  eapply (proj1 (proj2 (success_resets_retries "define_scope_with_reasoner" 2
                   define_scope_with_reasoner_func env_flaky (initial_state "hi")
                   fresh_world))).
  - reflexivity.
  - vm_compute. reflexivity.
  - reflexivity.
Defined.

(** C6, as stated, fails: [generate_tool_code] is registered without the
    error handler.  In a session that goes from [start_flow] through the
    scope, the coder node and the routing of "create tool", the node runs
    and returns the code, and [error_retries] has no entry for it
    afterwards, where the three wrapped steps before it have the entry 0.
    A counter that is there is not reset either: it stays 2. *)
Lemma unwrapped_success_counterexample :
  generated_code
    (fst (run_steps build_graph env_up
            [ExecNode "define_scope_with_reasoner"; ExecNode "coder_agent";
             UserInput "get_next_user_message" "create tool";
             Branch "get_next_user_message"; ExecNode "generate_tool_code"]
            (initial_state "hi") fresh_world)) = Some "ok"
  /\ retries_map
       (fst (run_steps build_graph env_up
               [ExecNode "define_scope_with_reasoner"; ExecNode "coder_agent";
                UserInput "get_next_user_message" "create tool";
                Branch "get_next_user_message"; ExecNode "generate_tool_code"]
               (initial_state "hi") fresh_world))
     = <["define_scope_with_reasoner" := 0]>
         (<["coder_agent" := 0]> (<["route_user_message" := 0]> ∅))
  /\ retries_map
       (fst (run_steps build_graph env_up
               [ExecNode "define_scope_with_reasoner"; ExecNode "coder_agent";
                UserInput "get_next_user_message" "create tool";
                Branch "get_next_user_message"; ExecNode "generate_tool_code"]
               (initial_state "hi") fresh_world)) !! "generate_tool_code"
     <> Some 0
  /\ generated_code
       (fst (run_step build_graph env_up (ExecNode "generate_tool_code")
               (set_error_retries {[ "generate_tool_code" := 2 ]}
                  (initial_state "create tool"))
               fresh_world)) = Some "ok"
  /\ retries_map
       (fst (run_step build_graph env_up (ExecNode "generate_tool_code")
               (set_error_retries {[ "generate_tool_code" := 2 ]}
                  (initial_state "create tool"))
               fresh_world)) !! "generate_tool_code"
     = Some 2.
Proof.
  split; [vm_compute; reflexivity |]. split; [vm_compute; reflexivity |].
  split; [vm_compute; discriminate |]. split; vm_compute; reflexivity.
Qed.

(** ** Routing *)

Lemma route_label_cases (user_msg : string) :
  (PyStr.substring_of "finish" user_msg -> route_label user_msg = "finish_conversation")
  /\ (~ PyStr.substring_of "finish" user_msg ->
      PyStr.substring_of "create tool" user_msg \/ PyStr.substring_of "new plugin" user_msg ->
      route_label user_msg = "create_tool")
  /\ (~ PyStr.substring_of "finish" user_msg ->
      ~ PyStr.substring_of "create tool" user_msg ->
      ~ PyStr.substring_of "new plugin" user_msg ->
      route_label user_msg = "coder_agent").
Proof.
  unfold route_label. split; [| split].
  - intros H. apply contains_iff in H. now rewrite H.
  - intros Hf Hc. apply contains_false_iff in Hf. rewrite Hf.
    replace (PyStr.contains "create tool" user_msg || PyStr.contains "new plugin" user_msg)
      with true; [reflexivity |].
    symmetry. apply orb_true_iff. destruct Hc as [Hc|Hc]; apply contains_iff in Hc; tauto.
  - intros Hf Hc Hp. apply contains_false_iff in Hf, Hc, Hp. now rewrite Hf, Hc, Hp.
Qed.

Lemma route_label_range (user_msg : string) :
  route_label user_msg = "finish_conversation"
  \/ route_label user_msg = "create_tool"
  \/ route_label user_msg = "coder_agent".
Proof.
  unfold route_label.
  destruct (PyStr.contains "finish" user_msg); [tauto |].
  destruct (PyStr.contains "create tool" user_msg || PyStr.contains "new plugin" user_msg); tauto.
Qed.

(** C2, as amended: whenever the call to the router agent that the Route
    step makes first returns, the step (decorated or not) returns exactly
    one of the three labels, fixed by the message alone and whatever the
    case of its letters: "finish_conversation" if it contains "finish";
    otherwise "create_tool" if it contains "create tool" or "new plugin";
    otherwise "coder_agent". *)
Theorem route_classification (s : AgentState) (env : Env) (w : World) (answer : string) :
  let msg := latest_user_message s in
  env (history w) (AgentRun router_agent (PyStr.lower msg)) = Returns answer ->
  exists label,
    route_user_message_func s env (history w)
    = (Returns (RetLabel label), history w ++ [AgentRun router_agent (PyStr.lower msg)])
    /\ fst (fst (route_user_message env s w)) = Returns (RetLabel label)
    /\ (PyStr.contains_ignoring_case "finish" msg -> label = "finish_conversation")
    /\ (~ PyStr.contains_ignoring_case "finish" msg ->
        PyStr.contains_ignoring_case "create tool" msg
        \/ PyStr.contains_ignoring_case "new plugin" msg ->
        label = "create_tool")
    /\ (~ PyStr.contains_ignoring_case "finish" msg ->
        ~ PyStr.contains_ignoring_case "create tool" msg ->
        ~ PyStr.contains_ignoring_case "new plugin" msg ->
        label = "coder_agent")
    /\ (label = "finish_conversation" \/ label = "create_tool" \/ label = "coder_agent").
Proof.
  intros msg Henv. set (user_msg := PyStr.lower msg) in *.
  exists (route_label user_msg).
  assert (Hfunc : forall s0, latest_user_message s0 = latest_user_message s ->
            route_user_message_func s0 env (history w)
            = (Returns (RetLabel (route_label user_msg)),
               history w ++ [AgentRun router_agent user_msg])).
  { intros s0 Hs0. unfold route_user_message_func, bind, perform, ret.
    rewrite Hs0. fold msg. fold user_msg. now rewrite Henv. }
  split; [apply Hfunc; reflexivity |]. split.
  - unfold route_user_message.
    erewrite wrapper_returns; [reflexivity |].
    apply Hfunc. destruct s as [m ms sc [l|] [r|] g t d]; reflexivity.
  - destruct (route_label_cases user_msg) as (H1 & H2 & H3).
    subst user_msg.
    pose proof (substring_lower_iff "finish" msg) as E1.
    pose proof (substring_lower_iff "create tool" msg) as E2.
    pose proof (substring_lower_iff "new plugin" msg) as E3.
    split; [tauto |]. split; [tauto |]. split; [tauto |].
    apply route_label_range.
Qed.

Lemma route_classification_witness :
  exists label,
    route_user_message_func (initial_state "Please FINISH now") env_up (history fresh_world)
    = (Returns (RetLabel label),
       history fresh_world ++ [AgentRun router_agent (PyStr.lower "Please FINISH now")])
    /\ fst (fst (route_user_message env_up (initial_state "Please FINISH now") fresh_world))
       = Returns (RetLabel label)
    /\ (PyStr.contains_ignoring_case "finish" "Please FINISH now" ->
        label = "finish_conversation")
    /\ (~ PyStr.contains_ignoring_case "finish" "Please FINISH now" ->
        PyStr.contains_ignoring_case "create tool" "Please FINISH now"
        \/ PyStr.contains_ignoring_case "new plugin" "Please FINISH now" ->
        label = "create_tool")
    /\ (~ PyStr.contains_ignoring_case "finish" "Please FINISH now" ->
        ~ PyStr.contains_ignoring_case "create tool" "Please FINISH now" ->
        ~ PyStr.contains_ignoring_case "new plugin" "Please FINISH now" ->
        label = "coder_agent")
    /\ (label = "finish_conversation" \/ label = "create_tool" \/ label = "coder_agent").
Proof.
  apply (route_classification (initial_state "Please FINISH now") env_up fresh_world "ok").
  reflexivity.
Defined.

(** The three examples of the specification. *)
Example route_examples :
  route_label (PyStr.lower "Please FINISH now") = "finish_conversation"
  /\ route_label (PyStr.lower "I'd like a new plugin for Slack") = "create_tool"
  /\ route_label (PyStr.lower "add a retry loop") = "coder_agent".
Proof. repeat split; reflexivity. Qed.

(** C2, as stated, fails when the router agent raises: on the message
    "finish" the undecorated step raises and the decorated one returns the
    reroute dict, which is no label. *)
Lemma route_counterexample :
  fst (route_user_message_func (initial_state "finish") env_down []) = Raises boom
  /\ fst (fst (route_user_message env_down (initial_state "finish") fresh_world))
     = Returns reroute_to_diagnose
  /\ forall label, reroute_to_diagnose <> RetLabel label.
Proof. split; [reflexivity | split; [reflexivity | discriminate]]. Qed.

(** ** finalize_new_tool *)

(** C5: when [generated_code] is missing, empty or made of white space only,
    [finalize_new_tool] returns the status "No code generated." and calls
    neither the file system nor the plugin loader; otherwise it first writes
    the code to plugins/tool_generated.py and, when the write went through,
    reloads the plugins. *)
Theorem finalize_short_circuit (s : AgentState) (env : Env) (h : list Event) :
  let code := default "" (generated_code s) in
  let write := FileWrite "plugins/tool_generated.py" code in
  let reload := LoadPlugins "plugins" in
  (PyStr.blank code = true ->
   finalize_new_tool s env h
   = (Returns (RetDict {[ "tool_creation_status" := VStr "No code generated." ]}), h))
  /\ (PyStr.blank code = false ->
      finalize_new_tool s env h
      = match env h write with
        | Raises e => (Raises e, h ++ [write])
        | Returns _ =>
            match env (h ++ [write]) reload with
            | Raises e => (Raises e, (h ++ [write]) ++ [reload])
            | Returns _ =>
                (Returns (RetDict {[ "tool_creation_status" :=
                            VStr "Plugin created: tool_generated.py" ]}),
                 (h ++ [write]) ++ [reload])
            end
        end).
Proof.
  intros code write reload. unfold finalize_new_tool. fold code. split.
  - intros Hb. apply strip_empty_iff in Hb. now rewrite Hb.
  - intros Hb.
    destruct (PyStr.truthy (PyStr.strip code)) eqn:Ht.
    + cbn [negb]. unfold bind, perform, ret.
      change ("plugins" +:+ "/" +:+ "tool_generated.py") with "plugins/tool_generated.py".
      fold write. fold reload.
      destruct (env h write); [| reflexivity].
      destruct (env (h ++ [write]) reload); reflexivity.
    + apply strip_empty_iff in Ht. congruence.
Qed.

Lemma finalize_short_circuit_witness :
  finalize_new_tool
    (mkAgentState "create tool" [] "" (Some []) (Some ∅) (Some "  ") None None) env_up []
  = (Returns (RetDict {[ "tool_creation_status" := VStr "No code generated." ]}), [])
  /\ finalize_new_tool
       (mkAgentState "create tool" [] "" (Some []) (Some ∅) (Some "class T: pass") None None)
       env_up []
     = (Returns (RetDict {[ "tool_creation_status" :=
                   VStr "Plugin created: tool_generated.py" ]}),
        ([] ++ [FileWrite "plugins/tool_generated.py" "class T: pass"])
          ++ [LoadPlugins "plugins"]).
Proof.
  split.
  - apply (proj1 (finalize_short_circuit
             (mkAgentState "create tool" [] "" (Some []) (Some ∅) (Some "  ") None None)
             env_up [])).
    reflexivity.
  - apply (proj2 (finalize_short_circuit
             (mkAgentState "create tool" [] "" (Some []) (Some ∅) (Some "class T: pass")
                None None)
             env_up [])).
    reflexivity.
Defined.

(** ** diagnose_errors *)

Lemma last_n_short {A} (n : nat) (l : list A) : (length l <= n)%nat -> last_n n l = l.
Proof. intros H. unfold last_n. now replace (length l - n)%nat with 0%nat by lia. Qed.

Lemma last_n_app {A} (n : nat) (older recent : list A) :
  length recent = n -> last_n n (older ++ recent) = recent.
Proof.
  intros H. unfold last_n. rewrite length_app, H.
  replace (length older + n - n)%nat with (length older) by lia.
  now rewrite drop_app_length.
Qed.

Lemma diagnose_with_contract (no_errors : string) (make_prompt : string -> string) :
  diagnose_contract no_errors make_prompt (diagnose_with no_errors make_prompt).
Proof.
  intros s env h. unfold diagnose_with.
  destruct (log_of s) as [|x l] eqn:Hlog.
  - split; [eexists _, _; reflexivity |]. split; [reflexivity | congruence].
  - set (prompt := make_prompt _).
    assert (Hrun : try_except
              (let* result := perform (AgentRun diagnostic_agent prompt)
               in ret (RetDict {[ "diagnostic_feedback" := VStr result ]}))
              (fun e => ret (RetDict {[ "diagnostic_feedback" := VStr (diagnostic_failure e) ]}))
              env h
            = (Returns (RetDict {[ "diagnostic_feedback" :=
                  VStr match env h (AgentRun diagnostic_agent prompt) with
                       | Returns answer => answer
                       | Raises e => diagnostic_failure e
                       end ]}),
               h ++ [AgentRun diagnostic_agent prompt])).
    { unfold try_except, bind, perform, ret.
      destruct (env h (AgentRun diagnostic_agent prompt)); reflexivity. }
    split; [eexists _, _; exact Hrun |]. split; [discriminate | intros _; exact Hrun].
Qed.

(** C10, as amended: in both iterations [diagnose_errors] returns a dict
    with a [diagnostic_feedback] string for every state and every behaviour
    of the diagnostic agent, and never raises.  On an empty (or missing) log
    it returns a fixed message without calling the agent: "No errors found
    to diagnose." in iterations/zippy-archon, "No errors to diagnose." in
    iterations/v2-agentic-workflow.  Otherwise it calls the agent once on a
    summary of the last three entries only, and when the agent raises the
    failure text becomes the feedback. *)
Theorem diagnose_errors_total :
  diagnose_contract "No errors found to diagnose." diagnose_prompt diagnose_errors
  /\ diagnose_contract "No errors to diagnose." V2.diagnose_prompt V2.diagnose_errors
  /\ (forall (older : list string) (a b c : string),
        PyStr.join (PyStr.LF +:+ PyStr.LF) (last_n 3 (older ++ [a; b; c]))
        = a +:+ (PyStr.LF +:+ PyStr.LF) +:+ b +:+ (PyStr.LF +:+ PyStr.LF) +:+ c)
  /\ (forall log : list string, (length log <= 3)%nat -> last_n 3 log = log).
Proof.
  split; [apply diagnose_with_contract |]. split; [apply diagnose_with_contract |].
  split; [| apply last_n_short].
  intros older a b c. now rewrite last_n_app.
Qed.

Lemma diagnose_errors_total_witness :
  diagnose_errors (set_error_log ["first"; "second"] (initial_state "hi")) env_down []
  = (Returns (RetDict {[ "diagnostic_feedback" := VStr (diagnostic_failure boom) ]}),
     [AgentRun diagnostic_agent
        (diagnose_prompt ("first" +:+ PyStr.LF +:+ PyStr.LF +:+ "second"))]).
Proof.
  apply (proj2 (proj2 (proj1 diagnose_errors_total
           (set_error_log ["first"; "second"] (initial_state "hi")) env_down []))).
  discriminate.
Defined.

(** C10, as stated, fails on iterations/v2-agentic-workflow: on an empty
    log the fixed message there is "No errors to diagnose.". *)
Lemma diagnose_errors_counterexample :
  V2.diagnose_errors (initial_state "hi") env_up []
  = (Returns (RetDict {[ "diagnostic_feedback" := VStr "No errors to diagnose." ]}), [])
  /\ "No errors to diagnose." <> "No errors found to diagnose.".
Proof. split; [reflexivity | discriminate]. Qed.

(** ** start_flow *)

(** C9: [start_flow(message)] hands [graph.run] a new state in which
    [latest_user_message] is the message, [messages] is empty, [scope] is
    the empty string, [error_log] is the empty list, [error_retries] is the
    empty dict and no other key is set, whatever the orchestrator went
    through before. *)
Theorem start_flow_initial_state {Graph RunValue : Type}
    (graph_run : Graph -> RunInput -> Res RunValue * Graph)
    (self : Graph) (user_message : string) :
  exists s,
    Orchestrator.start_flow graph_run self user_message = graph_run self (InState s)
    /\ latest_user_message s = user_message
    /\ messages s = []
    /\ scope s = ""
    /\ error_log s = Some []
    /\ error_retries s = Some ∅
    /\ generated_code s = None
    /\ tool_creation_status s = None
    /\ diagnostic_feedback s = None
    /\ (forall node_name, retries_of s node_name = 0).
Proof.
  exists (initial_state user_message). repeat split; reflexivity.
Qed.

(** ** After a reroute *)

Lemma branch_of_get_next_user_message :
  conditional_edges build_graph !! "get_next_user_message"
  = Some (route_user_message,
          <["coder_agent" := "coder_agent"]> $
          <["finish_conversation" := "finish_conversation"]> $
          <["create_tool" := "generate_tool_code"]> (∅ : gmap string string)).
Proof. reflexivity. Qed.

Section AfterReroute.
Import Traversal.
Variable env : Env.

Lemma traverse_end (fuel : nat) (s : AgentState) (w : World) (seen : list string) :
  traverse (S fuel) build_graph env (AtNode END) s w seen
  = mkRun (FinalState s) w seen.
Proof. reflexivity. Qed.

Lemma node_is_not_sentinel (name : string) (impl : NodeImpl) :
  nodes build_graph !! name = Some impl -> name <> END /\ name <> START.
Proof.
  intros H. split; intros ->; vm_compute in H; discriminate.
Qed.

(** One step of the traversal at a node that runs a function. *)
Lemma traverse_node (fuel : nat) (name : string) (f : NodeFn)
    (s : AgentState) (w : World) (seen : list string) :
  nodes build_graph !! name = Some (Runs f) ->
  traverse (S fuel) build_graph env (AtNode name) s w seen
  = let '(r, s1, w1) := f env s w in
    let seen1 := seen ++ [name] in
    match r with
    | Raises e => traverse fuel build_graph env (AtNode name) s1 w1 seen1
    | Returns (RetLabel _) =>
        match successor build_graph name with
        | Some p => traverse fuel build_graph env p s1 w1 seen1
        | None => mkRun (RoutingError name s1) w1 seen1
        end
    | Returns (RetDict d) =>
        match dynamic_target build_graph d with
        | Some target =>
            traverse fuel build_graph env (AtNode target) (merge_update s1 d) w1 seen1
        | None =>
            match successor build_graph name with
            | Some p => traverse fuel build_graph env p (merge_update s1 d) w1 seen1
            | None => mkRun (RoutingError name (merge_update s1 d)) w1 seen1
            end
        end
    end.
Proof.
  intros Hnode. destruct (node_is_not_sentinel _ _ Hnode) as [Hend Hstart].
  cbn [traverse]. destruct (decide (name = END)); [contradiction |].
  destruct (decide (name = START)); [contradiction |].
  rewrite Hnode. reflexivity.
Qed.

(** One step of the traversal at a conditional edge. *)
Lemma traverse_branch (fuel : nat) (source : string) (router : NodeFn)
    (mapping : gmap string string) (s : AgentState) (w : World) (seen : list string) :
  conditional_edges build_graph !! source = Some (router, mapping) ->
  traverse (S fuel) build_graph env (AtBranch source) s w seen
  = let '(r, s1, w1) := router env s w in
    match r with
    | Raises e => traverse fuel build_graph env (AtBranch source) s1 w1 seen
    | Returns (RetLabel label) =>
        match AtNode <$> (mapping !! label) with
        | Some p => traverse fuel build_graph env p s1 w1 seen
        | None => mkRun (RoutingError label s1) w1 seen
        end
    | Returns (RetDict d) =>
        match AtNode <$> dynamic_target build_graph d with
        | Some p => traverse fuel build_graph env p (merge_update s1 d) w1 seen
        | None => mkRun (RoutingError source (merge_update s1 d)) w1 seen
        end
    end.
Proof. intros Hedge. cbn [traverse]. unfold NodeFn in *. rewrite Hedge. reflexivity. Qed.

Lemma merge_reroute (s : AgentState) :
  merge_update s {[ "__route__" := VStr "diagnose_errors" ]} = s.
Proof. destruct s. reflexivity. Qed.

Lemma feedback_is_no_route (feedback : string) :
  dynamic_target build_graph {[ "diagnostic_feedback" := VStr feedback ]} = None.
Proof. reflexivity. Qed.

(** From [diagnose_errors] the traversal is over after that one node. *)
Lemma traverse_diagnose (fuel : nat) (s : AgentState) (w : World) (seen : list string) :
  exists feedback h',
    traverse (S (S fuel)) build_graph env (AtNode "diagnose_errors") s w seen
    = mkRun (FinalState (merge_update s {[ "diagnostic_feedback" := VStr feedback ]}))
        (mkWorld h' (awaited w)) (seen ++ ["diagnose_errors"]).
Proof.
  destruct (proj1 (diagnose_with_contract "No errors found to diagnose." diagnose_prompt
                     s env (history w))) as (feedback & h' & Hd).
  fold diagnose_errors in Hd. exists feedback, h'.
  rewrite (traverse_node _ _ (undecorated diagnose_errors)); [| reflexivity].
  unfold undecorated. rewrite Hd. rewrite feedback_is_no_route.
  change (successor build_graph "diagnose_errors") with (Some (AtNode END)).
  apply traverse_end.
Qed.

(** The two answers of the wrapper to a failure of its step. *)
Lemma wrapper_last_failure (name : string) (n : Z) (func : Step)
    (s : AgentState) (w : World) (e : Exn) (h' : list Event) :
  func (ensure_error_fields s) env (history w) = (Raises e, h') ->
  failures_left name n s = 0%nat ->
  error_handler_decorator name n func env s w
  = (Returns reroute_to_diagnose, after_failure name e s,
     mkWorld h' (awaited w ++ [name])).
Proof.
  intros Hf Hleft. rewrite (wrapper_raises _ _ _ _ _ _ _ _ Hf).
  replace (retries_of s name + 1 >=? n) with true; [reflexivity |].
  symmetry. apply Z.geb_le. unfold failures_left in Hleft. lia.
Qed.

Lemma wrapper_earlier_failure (name : string) (n : Z) (func : Step)
    (s : AgentState) (w : World) (e : Exn) (h' : list Event) (k : nat) :
  func (ensure_error_fields s) env (history w) = (Raises e, h') ->
  failures_left name n s = S k ->
  error_handler_decorator name n func env s w
  = (Raises e, after_failure name e s, mkWorld h' (awaited w ++ [name]))
  /\ failures_left name n (after_failure name e s) = k.
Proof.
  intros Hf Hleft. unfold failures_left in *. split.
  - rewrite (wrapper_raises _ _ _ _ _ _ _ _ Hf).
    replace (retries_of s name + 1 >=? n) with false; [reflexivity |].
    symmetry. rewrite Z.geb_leb. apply Z.leb_gt. lia.
  - rewrite retries_of_after_failure. lia.
Qed.

(** A wrapped node whose step keeps failing is invoked once per failure it
    has left and once more; that call reroutes, and [diagnose_errors] ends
    the traversal. *)
Lemma traverse_failing_node (name : string) (n : Z) (func : Step) :
  nodes build_graph !! name = Some (Runs (error_handler_decorator name n func)) ->
  always_fails func env ->
  forall (k : nat) (s : AgentState) (w : World) (seen : list string) (fuel : nat),
    failures_left name n s = k ->
    exists feedback s1 h',
      traverse (S k + S (S fuel)) build_graph env (AtNode name) s w seen
      = mkRun (FinalState (merge_update s1 {[ "diagnostic_feedback" := VStr feedback ]}))
          (mkWorld h' (awaited w ++ repeat name (S k)))
          (seen ++ repeat name (S k) ++ ["diagnose_errors"])
      /\ length (log_of s1) = (length (log_of s) + S k)%nat.
Proof.
  intros Hnode Hfail. induction k as [|k IH]; intros s w seen fuel Hleft.
  - destruct (Hfail (ensure_error_fields s) (history w)) as (e & h1 & Hf).
    destruct (traverse_diagnose fuel (after_failure name e s)
                (mkWorld h1 (awaited w ++ [name])) (seen ++ [name]))
      as (feedback & h' & Hd).
    exists feedback, (after_failure name e s), h'. split.
    + cbn [Nat.add]. rewrite (traverse_node _ _ _ _ _ _ Hnode).
      rewrite (wrapper_last_failure _ _ _ _ _ _ _ Hf Hleft).
      unfold reroute_to_diagnose.
      change (dynamic_target build_graph {[ "__route__" := VStr "diagnose_errors" ]})
        with (Some "diagnose_errors").
      rewrite merge_reroute, Hd. cbn [repeat awaited]. now rewrite <- app_assoc.
    + rewrite log_after_failure, length_app. reflexivity.
  - destruct (Hfail (ensure_error_fields s) (history w)) as (e & h1 & Hf).
    destruct (wrapper_earlier_failure _ _ _ _ _ _ _ _ Hf Hleft) as [Hcall Hless].
    destruct (IH (after_failure name e s) (mkWorld h1 (awaited w ++ [name]))
                (seen ++ [name]) fuel Hless) as (feedback & s1 & h' & Hrun & Hlog).
    exists feedback, s1, h'. split.
    + change (S (S k) + S (S fuel))%nat with (S (S k + S (S fuel))).
      rewrite (traverse_node _ _ _ _ _ _ Hnode), Hcall. cbv beta iota zeta.
      rewrite Hrun. cbn [awaited]. rewrite <- !app_assoc. reflexivity.
    + rewrite Hlog, log_after_failure, length_app. cbn [length]. lia.
Qed.

(** The same for the routing function of the conditional edge. *)
Lemma traverse_failing_router (n : Z) (func : Step) :
  route_user_message = error_handler_decorator "route_user_message" n func ->
  always_fails func env ->
  forall (k : nat) (s : AgentState) (w : World) (seen : list string) (fuel : nat),
    failures_left "route_user_message" n s = k ->
    exists feedback s1 h',
      traverse (S k + S (S fuel)) build_graph env (AtBranch "get_next_user_message") s w seen
      = mkRun (FinalState (merge_update s1 {[ "diagnostic_feedback" := VStr feedback ]}))
          (mkWorld h' (awaited w ++ repeat "route_user_message" (S k)))
          (seen ++ ["diagnose_errors"])
      /\ length (log_of s1) = (length (log_of s) + S k)%nat.
Proof.
  intros Hrouter Hfail. induction k as [|k IH]; intros s w seen fuel Hleft.
  - destruct (Hfail (ensure_error_fields s) (history w)) as (e & h1 & Hf).
    destruct (traverse_diagnose fuel (after_failure "route_user_message" e s)
                (mkWorld h1 (awaited w ++ ["route_user_message"])) seen)
      as (feedback & h' & Hd).
    exists feedback, (after_failure "route_user_message" e s), h'. split.
    + cbn [Nat.add].
      rewrite (traverse_branch _ _ _ _ _ _ _ branch_of_get_next_user_message).
      rewrite Hrouter, (wrapper_last_failure _ _ _ _ _ _ _ Hf Hleft).
      unfold reroute_to_diagnose.
      change (dynamic_target build_graph {[ "__route__" := VStr "diagnose_errors" ]})
        with (Some "diagnose_errors").
      cbn [fmap option_fmap option_map]. rewrite merge_reroute. exact Hd.
    + rewrite log_after_failure, length_app. reflexivity.
  - destruct (Hfail (ensure_error_fields s) (history w)) as (e & h1 & Hf).
    destruct (wrapper_earlier_failure _ _ _ _ _ _ _ _ Hf Hleft) as [Hcall Hless].
    destruct (IH (after_failure "route_user_message" e s)
                (mkWorld h1 (awaited w ++ ["route_user_message"])) seen fuel Hless)
      as (feedback & s1 & h' & Hrun & Hlog).
    exists feedback, s1, h'. split.
    + change (S (S k) + S (S fuel))%nat with (S (S k + S (S fuel))).
      rewrite (traverse_branch _ _ _ _ _ _ _ branch_of_get_next_user_message).
      rewrite Hrouter, Hcall. cbv beta iota zeta.
      rewrite Hrun. cbn [awaited]. rewrite <- !app_assoc. reflexivity.
    + rewrite Hlog, log_after_failure, length_app. cbn [length]. lia.
Qed.
End AfterReroute.

(** C8, as amended: once control is rerouted to [diagnose_errors], the
    traversal reaches END after running that single node: [diagnose_errors]
    neither raises nor reroutes, and the step that failed is not awaited
    again.  Diagnostics is the terminal fallback of the steps wrapped by the
    error handler: when the step of a wrapped node, or of the routing
    function, fails at every invocation, the step is invoked as often as
    its counter leaves room for, the last call reroutes, and the traversal
    reaches END through [diagnose_errors], with one log entry per
    invocation. *)
Theorem diagnose_is_terminal (env : Env) (fuel : nat) :
  (forall s w seen, exists feedback h',
     Traversal.traverse (S (S fuel)) build_graph env
       (Traversal.AtNode "diagnose_errors") s w seen
     = Traversal.mkRun
         (Traversal.FinalState
            (merge_update s {[ "diagnostic_feedback" := VStr feedback ]}))
         (mkWorld h' (awaited w)) (seen ++ ["diagnose_errors"]))
  /\ (forall name n func s w seen,
        nodes build_graph !! name = Some (Runs (error_handler_decorator name n func)) ->
        always_fails func env ->
        let invocations := S (failures_left name n s) in
        exists feedback s1 h',
          Traversal.traverse (invocations + S (S fuel)) build_graph env
            (Traversal.AtNode name) s w seen
          = Traversal.mkRun
              (Traversal.FinalState
                 (merge_update s1 {[ "diagnostic_feedback" := VStr feedback ]}))
              (mkWorld h' (awaited w ++ repeat name invocations))
              (seen ++ repeat name invocations ++ ["diagnose_errors"])
          /\ length (log_of s1) = (length (log_of s) + invocations)%nat)
  /\ (forall s w seen,
        always_fails route_user_message_func env ->
        let invocations := S (failures_left "route_user_message" 1 s) in
        exists feedback s1 h',
          Traversal.traverse (invocations + S (S fuel)) build_graph env
            (Traversal.AtBranch "get_next_user_message") s w seen
          = Traversal.mkRun
              (Traversal.FinalState
                 (merge_update s1 {[ "diagnostic_feedback" := VStr feedback ]}))
              (mkWorld h' (awaited w ++ repeat "route_user_message" invocations))
              (seen ++ ["diagnose_errors"])
          /\ length (log_of s1) = (length (log_of s) + invocations)%nat).
Proof.
  split; [| split].
  - intros s w seen. apply traverse_diagnose.
  - intros name n func s w seen Hnode Hfail invocations. subst invocations.
    exact (traverse_failing_node env name n func Hnode Hfail _ s w seen fuel eq_refl).
  - intros s w seen Hfail invocations. subst invocations.
    exact (traverse_failing_router env 1 route_user_message_func eq_refl Hfail
             _ s w seen fuel eq_refl).
Qed.

Lemma diagnose_is_terminal_witness :
  exists feedback s1 h',
    Traversal.traverse
      (S (failures_left "define_scope_with_reasoner" 2 (initial_state "hi")) + 2)
      build_graph env_down
      (Traversal.AtNode "define_scope_with_reasoner") (initial_state "hi") fresh_world []
    = Traversal.mkRun
        (Traversal.FinalState
           (merge_update s1 {[ "diagnostic_feedback" := VStr feedback ]}))
        (mkWorld h'
           (awaited fresh_world
              ++ repeat "define_scope_with_reasoner"
                   (S (failures_left "define_scope_with_reasoner" 2 (initial_state "hi")))))
        ([] ++ repeat "define_scope_with_reasoner"
                 (S (failures_left "define_scope_with_reasoner" 2 (initial_state "hi")))
            ++ ["diagnose_errors"])
    /\ length (log_of s1)
       = (length (log_of (initial_state "hi"))
          + S (failures_left "define_scope_with_reasoner" 2 (initial_state "hi")))%nat.
Proof.
  apply (proj1 (proj2 (diagnose_is_terminal env_down 0))
           "define_scope_with_reasoner" 2 define_scope_with_reasoner_func
           (initial_state "hi") fresh_world []).
  - reflexivity.
  - intros state h. eexists _, _. reflexivity.
Defined.

Lemma generate_tool_code_raises (s : AgentState) (w : World) :
  undecorated generate_tool_code env_no_tool_generator s w
  = (Raises boom, s,
     mkWorld (snd (generate_tool_code s env_no_tool_generator (history w))) (awaited w)).
Proof. reflexivity. Qed.

Lemma generate_tool_code_never_completes (fuel : nat)
    (s : AgentState) (w : World) (seen : list string) :
  Traversal.completes
    (Traversal.traverse fuel build_graph env_no_tool_generator
       (Traversal.AtNode "generate_tool_code") s w seen) = false.
Proof.
  revert s w seen. induction fuel as [|fuel IH]; intros s w seen; [reflexivity |].
  rewrite (traverse_node _ _ _ (undecorated generate_tool_code)); [| reflexivity].
  rewrite generate_tool_code_raises. apply IH.
Qed.

(** C8, as stated, fails: [_build_graph] registers [generate_tool_code]
    without the error handler.  When the tool generator agent keeps failing,
    every invocation of the node raises and leaves the state as it was: no
    entry is logged, no attempt is counted and no reroute is returned, so
    control never reaches [diagnose_errors] and the traversal, however long
    it goes on, does not reach END. *)
Lemma unwrapped_failure_counterexample :
  nodes build_graph !! "generate_tool_code" = Some (Runs (undecorated generate_tool_code))
  /\ (forall s w,
        fst (undecorated generate_tool_code env_no_tool_generator s w)
        = (Raises boom, s))
  /\ ~ (exists fuel,
          Traversal.completes
            (Traversal.resume fuel build_graph env_no_tool_generator
               "get_next_user_message" (initial_state "hi") "create tool" fresh_world)
          = true).
Proof.
  split; [reflexivity |]. split; [reflexivity |].
  intros (fuel & H). unfold Traversal.resume in H.
  change (nodes build_graph !! "get_next_user_message")
    with (Some (Interrupts "latest_user_message")) in H.
  change (Traversal.successor build_graph "get_next_user_message")
    with (Some (Traversal.AtBranch "get_next_user_message")) in H.
  destruct fuel as [|fuel]; [discriminate |].
  rewrite (traverse_branch _ _ _ _ _ _ _ _ branch_of_get_next_user_message) in H.
  assert (Hroute : exists s1 w1,
             route_user_message env_no_tool_generator
               (merge_update (initial_state "hi") {[ "latest_user_message" := VStr "create tool" ]})
               fresh_world
             = (Returns (RetLabel "create_tool"), s1, w1)).
  { eexists _, _. vm_compute. reflexivity. }
  destruct Hroute as (s1 & w1 & Hroute). rewrite Hroute in H. cbv beta iota in H.
  change (Traversal.AtNode <$>
          ((<["coder_agent" := "coder_agent"]> $
            <["finish_conversation" := "finish_conversation"]> $
            <["create_tool" := "generate_tool_code"]> (∅ : gmap string string))
           !! "create_tool"))
    with (Some (Traversal.AtNode "generate_tool_code")) in H.
  cbv beta iota in H.
  rewrite generate_tool_code_never_completes in H. discriminate.
Qed.

(** ** The error log only grows *)

Lemma error_message_has_name (node_name : string) (e : Exn) :
  PyStr.substring_of node_name (error_message node_name e).
Proof. eexists _, _. unfold error_message. reflexivity. Qed.

Lemma error_message_has_text (node_name : string) (e : Exn) :
  PyStr.substring_of (exn_str e) (error_message node_name e).
Proof.
  exists ("Error in node '" +:+ node_name +:+ "': "),
         (PyStr.LF +:+ "Traceback:" +:+ PyStr.LF +:+ exn_trace e).
  unfold error_message. now rewrite !append_assoc.
Qed.

Lemma wrapper_log (node_name : string) (n : Z) (func : Step) (env : Env)
    (s : AgentState) (w : World) :
  exists added,
    log_of (snd (fst (error_handler_decorator node_name n func env s w)))
    = log_of s ++ added
    /\ (length added <= 1)%nat.
Proof.
  destruct (func (ensure_error_fields s) env (history w)) as [[v|e] h'] eqn:Hf.
  - exists []. rewrite (wrapper_returns _ _ _ _ _ _ _ _ Hf). cbn [fst snd].
    rewrite log_after_success, app_nil_r. split; [reflexivity | simpl; lia].
  - exists [error_message node_name e]. rewrite (wrapper_raises _ _ _ _ _ _ _ _ Hf).
    cbn [fst snd]. rewrite log_after_failure. split; [reflexivity | simpl; lia].
Qed.

Lemma run_calls_log (calls : list Call) (env : Env) (s : AgentState) (w : World) :
  log_of s `prefix_of` log_of (fst (run_calls calls env s w)).
Proof.
  revert s w. induction calls as [|c rest IH]; intros s w; simpl; [reflexivity |].
  destruct (wrapper_log (call_name c) (call_max_retries c) (call_func c) env s w)
    as (added & Hadd & _).
  destruct (error_handler_decorator (call_name c) (call_max_retries c) (call_func c) env s w)
    as [[r s'] w'] eqn:Hcall.
  cbn [fst snd] in Hadd. etransitivity; [| apply IH].
  rewrite Hadd. now apply prefix_app_r.
Qed.

Lemma merge_keeps_log (s : AgentState) (d : gmap string Val) :
  d !! "error_log" = None -> log_of (merge_update s d) = log_of s.
Proof. intros H. unfold log_of, merge_update. cbn. now rewrite H. Qed.

Lemma keeps_log_define_scope : keeps_log define_scope_with_reasoner_func.
Proof.
  intros s env h d h'. unfold define_scope_with_reasoner_func, bind, perform, ret.
  destruct (env h _); intros [= <- _]; reflexivity.
Qed.

Lemma keeps_log_coder : keeps_log coder_agent_func.
Proof. intros s env h d h' [= <- _]. reflexivity. Qed.

Lemma keeps_log_route : keeps_log route_user_message_func.
Proof.
  intros s env h d h'. unfold route_user_message_func, bind, perform, ret.
  destruct (env h _); discriminate.
Qed.

Lemma keeps_log_finish : keeps_log finish_conversation_func.
Proof.
  intros s env h d h'. unfold finish_conversation_func, bind, perform, ret.
  destruct (env h _); intros [= <- _]; reflexivity.
Qed.

Lemma keeps_log_diagnose : keeps_log diagnose_errors.
Proof.
  intros s env h d h' H.
  destruct (proj1 (diagnose_with_contract "No errors found to diagnose." diagnose_prompt
                     s env h)) as (feedback & h1 & Hd).
  fold diagnose_errors in Hd. rewrite Hd in H. injection H as <- _. reflexivity.
Qed.

Lemma keeps_log_generate : keeps_log generate_tool_code.
Proof.
  intros s env h d h'. unfold generate_tool_code, bind, perform, ret.
  destruct (env h _); intros [= <- _]; reflexivity.
Qed.

Lemma keeps_log_finalize : keeps_log finalize_new_tool.
Proof.
  intros s env h d h'. unfold finalize_new_tool, bind, perform, ret.
  destruct (negb _); [intros [= <- _]; reflexivity |].
  destruct (env h _); [| discriminate].
  destruct (env (h ++ _) _); intros [= <- _]; reflexivity.
Qed.

Lemma decorated_log_grows (node_name : string) (n : Z) (func : Step) :
  keeps_log func -> log_grows (error_handler_decorator node_name n func).
Proof.
  intros Hk env s w.
  destruct (func (ensure_error_fields s) env (history w)) as [[v|e] h'] eqn:Hf.
  - rewrite (wrapper_returns _ _ _ _ _ _ _ _ Hf). cbn [fst snd].
    destruct v as [l|d]; cbn [merge_result].
    + now rewrite log_after_success.
    + rewrite (merge_keeps_log _ _ (Hk _ _ _ _ _ Hf)). now rewrite log_after_success.
  - rewrite (wrapper_raises _ _ _ _ _ _ _ _ Hf). cbn [fst snd].
    assert (Hlog : log_of s `prefix_of` log_of (after_failure node_name e s)).
    { rewrite log_after_failure. now apply prefix_app_r. }
    destruct (retries_of s node_name + 1 >=? n); cbn [merge_result]; [| exact Hlog].
    unfold reroute_to_diagnose. now rewrite merge_keeps_log.
Qed.

Lemma undecorated_log_grows (func : Step) : keeps_log func -> log_grows (undecorated func).
Proof.
  intros Hk env s w. unfold undecorated.
  destruct (func s env (history w)) as [[v|e] h'] eqn:Hf; cbn [fst snd merge_result];
    [| reflexivity].
  destruct v as [l|d]; [reflexivity |].
  now rewrite (merge_keeps_log _ _ (Hk _ _ _ _ _ Hf)).
Qed.

(** Every node function of the graph only lets the log grow. *)
Lemma graph_nodes_log_grow (name : string) (f : NodeFn) :
  nodes build_graph !! name = Some (Runs f) -> log_grows f.
Proof.
  unfold build_graph. cbn [nodes]. intros H.
  repeat (rewrite lookup_insert in H; case_decide;
          [ first
              [ discriminate H
              | injection H as <-;
                first [ apply decorated_log_grows | apply undecorated_log_grows ];
                auto using keeps_log_define_scope, keeps_log_coder, keeps_log_finish,
                  keeps_log_diagnose, keeps_log_generate, keeps_log_finalize ]
          | ]).
  rewrite lookup_empty in H. discriminate.
Qed.

Lemma log_grows_destructed (f : NodeFn) (env : Env) (s : AgentState) (w : World)
    (r : Res RetVal) (s' : AgentState) (w' : World) :
  log_grows f -> f env s w = (r, s', w') ->
  log_of s `prefix_of` log_of (merge_result r s').
Proof. intros Hg Hf. specialize (Hg env s w). now rewrite Hf in Hg. Qed.

Lemma merge_message_keeps_log (s : AgentState) (key message : string) :
  log_of (merge_update s {[ key := VStr message ]}) = log_of s.
Proof.
  unfold log_of, merge_update. cbn.
  destruct (({[ key := VStr message ]} : gmap string Val) !! "error_log") as [v|] eqn:E;
    [| reflexivity].
  apply lookup_singleton_Some in E as [_ <-]. reflexivity.
Qed.

Lemma run_step_log (env : Env) (step : RunStep) (s : AgentState) (w : World) :
  log_of s `prefix_of` log_of (fst (run_step build_graph env step s w)).
Proof.
  destruct step as [name|source|node message]; cbn [run_step].
  - destruct (nodes build_graph !! name) as [[f|key]|] eqn:Hnode; try reflexivity.
    destruct (f env s w) as [[r s'] w'] eqn:Hf. cbn [fst].
    exact (log_grows_destructed _ _ _ _ _ _ _ (graph_nodes_log_grow _ _ Hnode) Hf).
  - destruct (conditional_edges build_graph !! source) as [[router mapping]|] eqn:Hedge;
      [| reflexivity].
    unfold build_graph in Hedge. cbn [conditional_edges] in Hedge.
    apply lookup_singleton_Some in Hedge as [_ [= <- _]].
    destruct (route_user_message env s w) as [[r s'] w'] eqn:Hf. cbn [fst].
    refine (log_grows_destructed _ _ _ _ _ _ _ _ Hf).
    apply decorated_log_grows, keeps_log_route.
  - destruct (nodes build_graph !! node) as [[f|key]|]; try reflexivity.
    cbn [fst]. now rewrite merge_message_keeps_log.
Qed.

Lemma run_steps_log (env : Env) (steps : list RunStep) (s : AgentState) (w : World) :
  log_of s `prefix_of` log_of (fst (run_steps build_graph env steps s w)).
Proof.
  revert s w. induction steps as [|step rest IH]; intros s w; cbn [run_steps];
    [reflexivity |].
  pose proof (run_step_log env step s w) as Hstep.
  destruct (run_step build_graph env step s w) as [s' w'].
  etransitivity; [exact Hstep | apply IH].
Qed.

(** C7, as amended: a call of a step wrapped by the error handler leaves
    [error_log] as it was when the step returns, and appends exactly one
    entry, containing the node name and the text of the exception, when the
    step raises.  Nothing removes, replaces or moves an entry: over any
    sequence of wrapped calls, and over any sequence of node executions,
    routing calls and user messages of the graph with the returned dicts
    merged, the log at the start is a prefix of the log at the end, so its
    length never decreases. *)
Theorem error_log_append_only :
  (forall node_name n func env s w v h',
     func (ensure_error_fields s) env (history w) = (Returns v, h') ->
     log_of (snd (fst (error_handler_decorator node_name n func env s w))) = log_of s)
  /\ (forall node_name n func env s w e h',
        func (ensure_error_fields s) env (history w) = (Raises e, h') ->
        log_of (snd (fst (error_handler_decorator node_name n func env s w)))
        = log_of s ++ [error_message node_name e]
        /\ PyStr.substring_of node_name (error_message node_name e)
        /\ PyStr.substring_of (exn_str e) (error_message node_name e))
  /\ (forall calls env s w,
        log_of s `prefix_of` log_of (fst (run_calls calls env s w))
        /\ (length (log_of s) <= length (log_of (fst (run_calls calls env s w))))%nat)
  /\ (forall steps env s w,
        log_of s `prefix_of` log_of (fst (run_steps build_graph env steps s w))
        /\ (length (log_of s)
            <= length (log_of (fst (run_steps build_graph env steps s w))))%nat).
Proof.
  split; [| split; [| split]].
  - intros node_name n func env s w v h' Hf.
    rewrite (wrapper_returns _ _ _ _ _ _ _ _ Hf). cbn [fst snd].
    apply log_after_success.
  - intros node_name n func env s w e h' Hf.
    rewrite (wrapper_raises _ _ _ _ _ _ _ _ Hf). cbn [fst snd].
    split; [apply log_after_failure |].
    split; [apply error_message_has_name | apply error_message_has_text].
  - intros calls env s w. pose proof (run_calls_log calls env s w) as Hp.
    split; [exact Hp | now apply prefix_length].
  - intros steps env s w. pose proof (run_steps_log env steps s w) as Hp.
    split; [exact Hp | now apply prefix_length].
Qed.

Lemma error_log_append_only_witness :
  log_of (snd (fst (error_handler_decorator "define_scope_with_reasoner" 2
                      define_scope_with_reasoner_func env_down (initial_state "hi") fresh_world)))
  = log_of (initial_state "hi") ++ [error_message "define_scope_with_reasoner" boom]
  /\ PyStr.substring_of "define_scope_with_reasoner"
       (error_message "define_scope_with_reasoner" boom)
  /\ PyStr.substring_of (exn_str boom) (error_message "define_scope_with_reasoner" boom).
Proof.
  eapply (proj1 (proj2 error_log_append_only)). reflexivity.
Defined.

(** C7, as stated, fails for a step that is not wrapped: the node
    [generate_tool_code] of the graph raises when the tool generator agent
    fails, and no entry is appended to [error_log]. *)
Lemma unwrapped_failure_not_logged :
  nodes build_graph !! "generate_tool_code" = Some (Runs (undecorated generate_tool_code))
  /\ fst (fst (undecorated generate_tool_code env_no_tool_generator
                 (initial_state "create tool") fresh_world))
     = Raises boom
  /\ log_of (snd (fst (undecorated generate_tool_code env_no_tool_generator
                         (initial_state "create tool") fresh_world)))
     = log_of (initial_state "create tool").
Proof. repeat split; reflexivity. Qed.

(** ** The model at work *)

(** A session in which every agent answers: the run suspends after the
    scope and the coder node, and resuming with "Please finish" ends it
    through [finish_conversation]. *)
Example session_suspends_then_finishes :
  let first := Traversal.run 10 build_graph env_up
                 (initial_state "build me an agent") fresh_world in
  Traversal.visited first = ["define_scope_with_reasoner"; "coder_agent"]
  /\ match Traversal.outcome first with
     | Traversal.SuspendSignal at_node s =>
         at_node = "get_next_user_message" /\ scope s = "ok"
         /\ Traversal.completes
              (Traversal.resume 10 build_graph env_up at_node s
                 "Please finish" (Traversal.world first)) = true
         /\ Traversal.visited
              (Traversal.resume 10 build_graph env_up at_node s
                 "Please finish" (Traversal.world first)) = ["finish_conversation"]
     | _ => False
     end.
Proof. vm_compute. repeat split; reflexivity. Qed.

(** With every agent down the scope node is awaited twice, then
    [diagnose_errors] ends the run with two entries in the log. *)
Example session_escalates_to_diagnostics :
  let r := Traversal.run 10 build_graph env_down
             (initial_state "build me an agent") fresh_world in
  Traversal.visited r
  = ["define_scope_with_reasoner"; "define_scope_with_reasoner"; "diagnose_errors"]
  /\ awaited (Traversal.world r)
     = ["define_scope_with_reasoner"; "define_scope_with_reasoner"]
  /\ match Traversal.outcome r with
     | Traversal.FinalState s =>
         length (log_of s) = 2%nat
         /\ retries_of s "define_scope_with_reasoner" = 2
         /\ diagnostic_feedback s = Some (diagnostic_failure boom)
     | _ => False
     end.
Proof. vm_compute. repeat split; reflexivity. Qed.

(* ===================================================================== *)
(** * Further properties of the code *)
(* ===================================================================== *)

(** ** The error handler touches only its own bookkeeping *)

Lemma same_payload_refl (s : AgentState) : same_payload s s.
Proof. repeat split. Qed.

Lemma same_payload_trans (s1 s2 s3 : AgentState) :
  same_payload s1 s2 -> same_payload s2 s3 -> same_payload s1 s3.
Proof.
  intros (A1 & A2 & A3 & A4 & A5 & A6) (B1 & B2 & B3 & B4 & B5 & B6).
  repeat split; congruence.
Qed.

Lemma same_payload_after_success (node_name : string) (s : AgentState) :
  same_payload s (after_success node_name s).
Proof. destruct s as [m ms sc [l|] [r|] g t d]; repeat split. Qed.

Lemma same_payload_after_failure (node_name : string) (e : Exn) (s : AgentState) :
  same_payload s (after_failure node_name e s).
Proof. destruct s as [m ms sc [l|] [r|] g t d]; repeat split. Qed.

Lemma wrapper_state (node_name : string) (n : Z) (func : Step) (env : Env)
    (s : AgentState) (w : World) :
  snd (fst (error_handler_decorator node_name n func env s w)) = after_success node_name s
  \/ exists e, snd (fst (error_handler_decorator node_name n func env s w))
               = after_failure node_name e s.
Proof.
  destruct (func (ensure_error_fields s) env (history w)) as [[v|e] h'] eqn:Hf.
  - left. now rewrite (wrapper_returns _ _ _ _ _ _ _ _ Hf).
  - right. exists e. now rewrite (wrapper_raises _ _ _ _ _ _ _ _ Hf).
Qed.

Lemma wrapper_keeps_payload (node_name : string) (n : Z) (func : Step) (env : Env)
    (s : AgentState) (w : World) :
  same_payload s (snd (fst (error_handler_decorator node_name n func env s w))).
Proof.
  destruct (wrapper_state node_name n func env s w) as [-> | [e ->]].
  - apply same_payload_after_success.
  - apply same_payload_after_failure.
Qed.

Lemma wrapper_keeps_other_counters (node_name : string) (n : Z) (func : Step) (env : Env)
    (s : AgentState) (w : World) (other : string) :
  other <> node_name ->
  retries_map (snd (fst (error_handler_decorator node_name n func env s w))) !! other
  = retries_map s !! other.
Proof.
  intros Hne. destruct (wrapper_state node_name n func env s w) as [-> | [e ->]].
  - unfold retries_map at 1. rewrite retries_after_success. cbn.
    now apply lookup_insert_ne.
  - unfold retries_map at 1. rewrite retries_after_failure. cbn.
    now apply lookup_insert_ne.
Qed.

(** X1: a call of the wrapper changes nothing in the state but [error_log]
    and the counter of its own node: the message, the messages, the scope
    and the fields of the other nodes are as before, and so is the counter
    of every other node. *)
Theorem wrapper_frame (node_name : string) (n : Z) (func : Step) (env : Env)
    (s : AgentState) (w : World) :
  same_payload s (snd (fst (error_handler_decorator node_name n func env s w)))
  /\ forall other,
       other <> node_name ->
       retries_map (snd (fst (error_handler_decorator node_name n func env s w))) !! other
       = retries_map s !! other.
Proof.
  split.
  - apply wrapper_keeps_payload.
  - intros other Hne. now apply wrapper_keeps_other_counters.
Qed.

Lemma wrapper_frame_witness :
  retries_map (snd (fst (error_handler_decorator "coder_agent" 2 coder_agent_func env_down
                           (after_failure "route_user_message" boom (initial_state "hi"))
                           fresh_world))) !! "route_user_message"
  = retries_map (after_failure "route_user_message" boom (initial_state "hi"))
      !! "route_user_message".
Proof.
  apply (proj2 (wrapper_frame "coder_agent" 2 coder_agent_func env_down
                  (after_failure "route_user_message" boom (initial_state "hi")) fresh_world)).
  discriminate.
Defined.

(** ** Counters never go below zero *)

Lemma retries_of_after_success (node_name : string) (s : AgentState) (name : string) :
  retries_of (after_success node_name s) name
  = if decide (node_name = name) then 0 else retries_of s name.
Proof.
  unfold retries_of at 1, retries_map. rewrite retries_after_success. cbn.
  rewrite lookup_insert. now case_decide.
Qed.

Lemma retries_of_after_failure_any (node_name : string) (e : Exn) (s : AgentState)
    (name : string) :
  retries_of (after_failure node_name e s) name
  = if decide (node_name = name) then retries_of s node_name + 1 else retries_of s name.
Proof.
  unfold retries_of at 1, retries_map. rewrite retries_after_failure. cbn.
  rewrite lookup_insert. now case_decide.
Qed.

Lemma wrapper_keeps_nonneg (node_name : string) (n : Z) (func : Step) (env : Env)
    (s : AgentState) (w : World) :
  counters_nonneg s ->
  counters_nonneg (snd (fst (error_handler_decorator node_name n func env s w))).
Proof.
  intros Hs name. destruct (wrapper_state node_name n func env s w) as [-> | [e ->]].
  - rewrite retries_of_after_success. case_decide; [lia | apply Hs].
  - rewrite retries_of_after_failure_any. case_decide; [| apply Hs].
    specialize (Hs node_name). lia.
Qed.

Lemma single_attempt_no_raise (node_name : string) (n : Z) (func : Step)
    (env : Env) (s : AgentState) (w : World) :
  n <= 1 ->
  0 <= retries_of s node_name ->
  exists v, fst (fst (error_handler_decorator node_name n func env s w)) = Returns v.
Proof.
  intros Hn Hc.
  destruct (func (ensure_error_fields s) env (history w)) as [[v|e] h'] eqn:Hf.
  - exists v. now rewrite (wrapper_returns _ _ _ _ _ _ _ _ Hf).
  - exists reroute_to_diagnose. rewrite (wrapper_raises _ _ _ _ _ _ _ _ Hf).
    replace (retries_of s node_name + 1 >=? n) with true; [reflexivity |].
    symmetry. apply Z.geb_le. lia.
Qed.

(** X2: a node function decorated with [max_retries <= 1] never raises out
    of the wrapper when its counter is not negative: either its value is
    returned or its first failure is rerouted at once. *)
Theorem single_attempt_never_raises (node_name : string) (n : Z) (func : Step)
    (env : Env) (s : AgentState) (w : World) :
  n <= 1 ->
  0 <= retries_of s node_name ->
  exists v, fst (fst (error_handler_decorator node_name n func env s w)) = Returns v
            /\ (v = reroute_to_diagnose
                \/ exists h', func (ensure_error_fields s) env (history w) = (Returns v, h')).
Proof.
  intros Hn Hc.
  destruct (func (ensure_error_fields s) env (history w)) as [[v|e] h'] eqn:Hf.
  - exists v. rewrite (wrapper_returns _ _ _ _ _ _ _ _ Hf). eauto.
  - exists reroute_to_diagnose. rewrite (wrapper_raises _ _ _ _ _ _ _ _ Hf).
    replace (retries_of s node_name + 1 >=? n) with true; [cbn; auto |].
    symmetry. apply Z.geb_le. lia.
Qed.

Lemma single_attempt_never_raises_witness :
  exists v,
    fst (fst (error_handler_decorator "finish_conversation" 1 finish_conversation_func
                env_down (initial_state "bye") fresh_world)) = Returns v
    /\ (v = reroute_to_diagnose
        \/ exists h',
             finish_conversation_func (ensure_error_fields (initial_state "bye")) env_down
               (history fresh_world) = (Returns v, h')).
Proof.
  apply single_attempt_never_raises.
  - lia.
  - vm_compute. discriminate.
Defined.

(** ** What the nodes of the graph return *)

Lemma returns_key_define_scope : returns_key "scope" define_scope_with_reasoner_func.
Proof.
  intros s env h r h'. unfold define_scope_with_reasoner_func, bind, perform, ret.
  destruct (env h _); intros [= <- _]; eauto.
Qed.

Lemma returns_key_coder : returns_key "messages" coder_agent_func.
Proof. intros s env h r h' [= <- _]. eauto. Qed.

Lemma returns_key_finish : returns_key "messages" finish_conversation_func.
Proof.
  intros s env h r h'. unfold finish_conversation_func, bind, perform, ret.
  destruct (env h _); intros [= <- _]; eauto.
Qed.

Lemma returns_key_diagnose : returns_key "diagnostic_feedback" diagnose_errors.
Proof.
  intros s env h r h' H.
  destruct (proj1 (diagnose_with_contract "No errors found to diagnose." diagnose_prompt
                     s env h)) as (feedback & h1 & Hd).
  fold diagnose_errors in Hd. rewrite Hd in H. injection H as <- _. eauto.
Qed.

Lemma returns_key_generate : returns_key "generated_code" generate_tool_code.
Proof.
  intros s env h r h'. unfold generate_tool_code, bind, perform, ret.
  destruct (env h _); intros [= <- _]; eauto.
Qed.

Lemma returns_key_finalize : returns_key "tool_creation_status" finalize_new_tool.
Proof.
  intros s env h r h'. unfold finalize_new_tool, bind, perform, ret.
  destruct (negb _); [intros [= <- _]; eauto |].
  destruct (env h _); [| discriminate].
  destruct (env (h ++ _) _); intros [= <- _]; eauto.
Qed.

(** The nodes of the graph that run a function, one by one. *)
Lemma graph_node_cases (name : string) (f : NodeFn) :
  nodes build_graph !! name = Some (Runs f) ->
  (exists n func,
     f = error_handler_decorator name n func /\ returns_key (produced_key name) func
     /\ name ∈ decorated_names)
  \/ (exists func, f = undecorated func /\ returns_key (produced_key name) func).
Proof.
  unfold build_graph. cbn [nodes]. intros H.
  repeat (rewrite lookup_insert in H; case_decide;
          [ first
              [ discriminate H
              | injection H as <-; subst name;
                first
                  [ left; eexists _, _; split; [reflexivity |]; split;
                    [ first [ exact returns_key_define_scope | exact returns_key_coder
                            | exact returns_key_finish ]
                    | apply list_elem_of_In; simpl; tauto ]
                  | right; eexists; split; [reflexivity |];
                    first [ exact returns_key_diagnose | exact returns_key_generate
                          | exact returns_key_finalize ] ] ]
          | ]).
  rewrite lookup_empty in H. discriminate.
Qed.

Lemma interrupt_node_cases (node key : string) :
  nodes build_graph !! node = Some (Interrupts key) ->
  node = "get_next_user_message" /\ key = "latest_user_message".
Proof.
  unfold build_graph. cbn [nodes]. intros H.
  repeat (rewrite lookup_insert in H; case_decide;
          [ first [ discriminate H | injection H as <-; subst node; split; reflexivity ] | ]).
  rewrite lookup_empty in H. discriminate.
Qed.

Lemma branch_cases (source : string) (router : NodeFn) (mapping : gmap string string) :
  conditional_edges build_graph !! source = Some (router, mapping) ->
  source = "get_next_user_message" /\ router = route_user_message.
Proof.
  unfold build_graph. cbn [conditional_edges]. intros H.
  apply lookup_singleton_Some in H as [<- [= <- _]]. split; reflexivity.
Qed.

Lemma graph_node_frame (name : string) (f : NodeFn) (env : Env) (s : AgentState) (w : World) :
  nodes build_graph !! name = Some (Runs f) ->
  same_payload s (snd (fst (f env s w))).
Proof.
  intros Hnode.
  destruct (graph_node_cases _ _ Hnode) as [(n & func & -> & _) | (func & -> & _)].
  - apply wrapper_keeps_payload.
  - unfold undecorated. destruct (func s env (history w)). apply same_payload_refl.
Qed.

Lemma node_result_dict (name : string) (f : NodeFn) (env : Env)
    (s : AgentState) (w : World) (r : RetVal) (s1 : AgentState) (w1 : World) :
  nodes build_graph !! name = Some (Runs f) ->
  f env s w = (Returns r, s1, w1) ->
  (exists v, r = RetDict {[ produced_key name := v ]})
  \/ (r = reroute_to_diagnose /\ name ∈ decorated_names).
Proof.
  intros Hnode Hf.
  destruct (graph_node_cases _ _ Hnode) as [(n & func & -> & Hkey & Hdec) | (func & -> & Hkey)].
  - destruct (func (ensure_error_fields s) env (history w)) as [[v|e] h'] eqn:Hfunc.
    + rewrite (wrapper_returns _ _ _ _ _ _ _ _ Hfunc) in Hf. injection Hf as <- _ _.
      left. exact (Hkey _ _ _ _ _ Hfunc).
    + rewrite (wrapper_raises _ _ _ _ _ _ _ _ Hfunc) in Hf.
      destruct (retries_of s name + 1 >=? n); [| discriminate].
      injection Hf as <- _ _. right. split; [reflexivity | exact Hdec].
  - unfold undecorated in Hf.
    destruct (func s env (history w)) as [r0 h'] eqn:Hfunc.
    injection Hf as -> _ _. left. exact (Hkey _ _ _ _ _ Hfunc).
Qed.

(** X3: whatever a node of the graph returns is a dict with the one key
    that node writes ([scope], [messages], [diagnostic_feedback],
    [generated_code] or [tool_creation_status]), or, for a decorated node,
    the reroute to [diagnose_errors]; the state it leaves differs from the
    state it got in [error_log] and [error_retries] at most. *)
Theorem node_returns_its_key (name : string) (f : NodeFn) (env : Env)
    (s : AgentState) (w : World) (r : RetVal) (s1 : AgentState) (w1 : World) :
  nodes build_graph !! name = Some (Runs f) ->
  f env s w = (Returns r, s1, w1) ->
  ((exists v, r = RetDict {[ produced_key name := v ]})
   \/ (r = reroute_to_diagnose /\ name ∈ decorated_names))
  /\ same_payload s s1.
Proof.
  intros Hnode Hf. split.
  - exact (node_result_dict _ _ _ _ _ _ _ _ Hnode Hf).
  - pose proof (graph_node_frame _ _ env s w Hnode) as Hframe.
    rewrite Hf in Hframe. exact Hframe.
Qed.

Lemma node_returns_its_key_witness :
  ((exists v, RetDict {[ "generated_code" := VStr "ok" ]}
              = RetDict {[ produced_key "generate_tool_code" := v ]})
   \/ (RetDict {[ "generated_code" := VStr "ok" ]} = reroute_to_diagnose
       /\ "generate_tool_code" ∈ decorated_names))
  /\ same_payload (initial_state "create tool") (initial_state "create tool").
Proof.
  eapply (node_returns_its_key "generate_tool_code" (undecorated generate_tool_code)
            env_up (initial_state "create tool") fresh_world).
  - reflexivity.
  - reflexivity.
Defined.

(** ** What a run keeps *)

Lemma merge_messages_prefix (s : AgentState) (d : gmap string Val) :
  messages s `prefix_of` messages (merge_update s d).
Proof.
  unfold merge_update. cbn. destruct (d !! "messages") as [[v|v]|]; try reflexivity.
  now apply prefix_app_r.
Qed.

Lemma merge_result_messages (r : Res RetVal) (s : AgentState) :
  messages s `prefix_of` messages (merge_result r s).
Proof. destruct r as [[l|d]|e]; try reflexivity. apply merge_messages_prefix. Qed.

Lemma merge_result_retries (r : Res RetVal) (s : AgentState) :
  retries_map (merge_result r s) = retries_map s.
Proof. destruct r as [[l|d]|e]; reflexivity. Qed.

Lemma merge_singleton_message (s : AgentState) (key : string) (v : Val) :
  key <> "latest_user_message" ->
  latest_user_message (merge_update s {[ key := v ]}) = latest_user_message s.
Proof. intros Hne. unfold merge_update. cbn. now rewrite lookup_singleton_ne. Qed.

Lemma produced_key_is_no_message (name : string) :
  produced_key name <> "latest_user_message".
Proof. unfold produced_key. repeat case_decide; discriminate. Qed.

(** The state after one step of a run, case by case. *)
Lemma run_step_shape (env : Env) (step : RunStep) (s : AgentState) (w : World) :
  fst (run_step build_graph env step s w) = s
  \/ (exists name f,
        step = ExecNode name /\ nodes build_graph !! name = Some (Runs f)
        /\ fst (run_step build_graph env step s w)
           = merge_result (fst (fst (f env s w))) (snd (fst (f env s w))))
  \/ (step = Branch "get_next_user_message"
      /\ fst (run_step build_graph env step s w)
         = merge_result (fst (fst (route_user_message env s w)))
             (snd (fst (route_user_message env s w))))
  \/ (exists message,
        step = UserInput "get_next_user_message" message
        /\ fst (run_step build_graph env step s w)
           = merge_update s {[ "latest_user_message" := VStr message ]}).
Proof.
  destruct step as [name|source|node message]; cbn [run_step].
  - destruct (nodes build_graph !! name) as [[f|key]|] eqn:Hnode; try (left; reflexivity).
    right. left. exists name, f. split; [reflexivity |]. split; [exact Hnode |].
    now destruct (f env s w) as [[r s'] w'].
  - destruct (conditional_edges build_graph !! source) as [[router mapping]|] eqn:Hedge;
      [| left; reflexivity].
    destruct (branch_cases _ _ _ Hedge) as [-> ->].
    right. right. left. split; [reflexivity |].
    now destruct (route_user_message env s w) as [[r s'] w'].
  - destruct (nodes build_graph !! node) as [[f|key]|] eqn:Hnode; try (left; reflexivity).
    destruct (interrupt_node_cases _ _ Hnode) as [-> ->].
    right. right. right. exists message. split; reflexivity.
Qed.

Lemma run_step_messages (env : Env) (step : RunStep) (s : AgentState) (w : World) :
  messages s `prefix_of` messages (fst (run_step build_graph env step s w)).
Proof.
  destruct (run_step_shape env step s w)
    as [-> | [(name & f & _ & Hnode & ->) | [(_ & ->) | (message & _ & ->)]]].
  - reflexivity.
  - destruct (graph_node_frame _ _ env s w Hnode) as (_ & Hm & _).
    rewrite <- Hm at 1. apply merge_result_messages.
  - destruct (wrapper_keeps_payload "route_user_message" 1 route_user_message_func env s w)
      as (_ & Hm & _).
    fold route_user_message in Hm. rewrite <- Hm at 1. apply merge_result_messages.
  - apply merge_messages_prefix.
Qed.

(** X4: [messages] only grows.  Over any sequence of node executions,
    routing calls and user messages of the graph, with the returned dicts
    merged by the reducer of [AgentState], the messages at the start are a
    prefix of the messages at the end. *)
Theorem messages_append_only (steps : list RunStep) (env : Env) (s : AgentState) (w : World) :
  messages s `prefix_of` messages (fst (run_steps build_graph env steps s w))
  /\ (length (messages s)
      <= length (messages (fst (run_steps build_graph env steps s w))))%nat.
Proof.
  assert (H : messages s `prefix_of` messages (fst (run_steps build_graph env steps s w))).
  { revert s w. induction steps as [|step rest IH]; intros s w; cbn [run_steps];
      [reflexivity |].
    pose proof (run_step_messages env step s w) as Hstep.
    destruct (run_step build_graph env step s w) as [s' w'].
    etransitivity; [exact Hstep | apply IH]. }
  split; [exact H | now apply prefix_length].
Qed.

Lemma merge_node_result_message (name : string) (f : NodeFn) (env : Env)
    (s : AgentState) (w : World) :
  nodes build_graph !! name = Some (Runs f) ->
  latest_user_message (merge_result (fst (fst (f env s w))) (snd (fst (f env s w))))
  = latest_user_message s.
Proof.
  intros Hnode. destruct (f env s w) as [[r s1] w1] eqn:Hf. cbn [fst snd].
  destruct r as [r|e].
  - pose proof (graph_node_frame _ _ env s w Hnode) as (Hm & _).
    rewrite Hf in Hm. cbn [fst snd] in Hm.
    destruct (node_result_dict _ _ _ _ _ _ _ _ Hnode Hf) as [[v ->] | [-> _]];
      cbn [merge_result].
    + rewrite merge_singleton_message; [exact Hm | apply produced_key_is_no_message].
    + unfold reroute_to_diagnose. rewrite merge_singleton_message; [exact Hm | discriminate].
  - pose proof (graph_node_frame _ _ env s w Hnode) as (Hm & _).
    rewrite Hf in Hm. exact Hm.
Qed.

Lemma merge_router_result_message (env : Env) (s : AgentState) (w : World) :
  latest_user_message
    (merge_result (fst (fst (route_user_message env s w)))
       (snd (fst (route_user_message env s w))))
  = latest_user_message s.
Proof.
  destruct (wrapper_keeps_payload "route_user_message" 1 route_user_message_func env s w)
    as (Hm & _).
  fold route_user_message in Hm.
  destruct (route_user_message_func (ensure_error_fields s) env (history w))
    as [[v|e] h'] eqn:Hfunc.
  - unfold route_user_message in *.
    rewrite (wrapper_returns _ _ _ _ _ _ _ _ Hfunc) in *. cbn [fst snd] in *.
    unfold route_user_message_func, bind, perform, ret in Hfunc.
    destruct (env (history w) _); [| discriminate].
    injection Hfunc as <- _. exact Hm.
  - unfold route_user_message in *.
    rewrite (wrapper_raises _ _ _ _ _ _ _ _ Hfunc) in *. cbn [fst snd] in *.
    destruct (_ >=? _); cbn [merge_result]; [| exact Hm].
    unfold reroute_to_diagnose. rewrite merge_singleton_message; [exact Hm | discriminate].
Qed.

(** X5: only a new user message changes [latest_user_message].  No node
    function and no routing call of the graph changes it, and taking the
    message [m] at [get_next_user_message] sets it to [m]. *)
Theorem latest_message_from_user_only :
  (forall steps env s w,
     forallb (fun step => negb (is_user_input step)) steps = true ->
     latest_user_message (fst (run_steps build_graph env steps s w))
     = latest_user_message s)
  /\ (forall env s w m,
        latest_user_message
          (fst (run_step build_graph env (UserInput "get_next_user_message" m) s w))
        = m).
Proof.
  split.
  - intros steps env. induction steps as [|step rest IH]; intros s w Hno;
      cbn [run_steps]; [reflexivity |].
    cbn [forallb] in Hno. apply andb_true_iff in Hno as [Hstep Hrest].
    assert (Hone : latest_user_message (fst (run_step build_graph env step s w))
                   = latest_user_message s).
    { destruct (run_step_shape env step s w)
        as [-> | [(name & f & _ & Hnode & ->) | [(_ & ->) | (message & -> & _)]]].
      - reflexivity.
      - exact (merge_node_result_message name f env s w Hnode).
      - apply merge_router_result_message.
      - discriminate. }
    destruct (run_step build_graph env step s w) as [s' w'].
    cbn [fst] in Hone. rewrite <- Hone. now apply IH.
  - intros env s w m. reflexivity.
Qed.

Lemma latest_message_from_user_only_witness :
  latest_user_message
    (fst (run_steps build_graph env_down
            [ExecNode "define_scope_with_reasoner"; ExecNode "coder_agent";
             Branch "get_next_user_message"; ExecNode "diagnose_errors"]
            (initial_state "hi") fresh_world))
  = latest_user_message (initial_state "hi").
Proof.
  apply (proj1 latest_message_from_user_only). reflexivity.
Defined.

Lemma wrapper_keeps_decorated (node_name : string) (n : Z) (func : Step) (env : Env)
    (s : AgentState) (w : World) :
  node_name ∈ decorated_names ->
  counters_decorated s ->
  counters_decorated (snd (fst (error_handler_decorator node_name n func env s w))).
Proof.
  intros Hdec Hs name Hsome.
  assert (Hcases : name = node_name \/ is_Some (retries_map s !! name)).
  { destruct (decide (name = node_name)) as [|Hne]; [now left | right].
    now rewrite <- (wrapper_keeps_other_counters node_name n func env s w name Hne). }
  destruct Hcases as [-> | Hold]; [exact Hdec | now apply Hs].
Qed.

Lemma run_step_counters (env : Env) (step : RunStep) (s : AgentState) (w : World) :
  counters_nonneg s /\ counters_decorated s ->
  counters_nonneg (fst (run_step build_graph env step s w))
  /\ counters_decorated (fst (run_step build_graph env step s w)).
Proof.
  intros [Hn Hd].
  assert (Hmerge : forall r s1,
            counters_nonneg s1 /\ counters_decorated s1 ->
            counters_nonneg (merge_result r s1) /\ counters_decorated (merge_result r s1)).
  { intros r s1 [H1 H2]. split.
    - intros name. unfold retries_of. rewrite merge_result_retries. apply H1.
    - intros name. rewrite merge_result_retries. apply H2. }
  destruct (run_step_shape env step s w)
    as [Heq | [(name & f & _ & Hnode & Heq) | [(_ & Heq) | (message & _ & Heq)]]];
    rewrite Heq.
  - now split.
  - apply Hmerge.
    destruct (graph_node_cases _ _ Hnode) as [(n & func & -> & _ & Hdec) | (func & -> & _)].
    + split; [now apply wrapper_keeps_nonneg | now apply wrapper_keeps_decorated].
    + unfold undecorated. destruct (func s env (history w)). now split.
  - apply Hmerge. unfold route_user_message. split.
    + now apply wrapper_keeps_nonneg.
    + apply wrapper_keeps_decorated; [apply list_elem_of_In; simpl; tauto | exact Hd].
  - now split.
Qed.

(** X6: in every state that a run reaches from the state built by
    [start_flow], all counters of [error_retries] are non-negative and
    belong to decorated node functions; so, whatever the agents do there,
    [route_user_message] and [finish_conversation] (both decorated with
    [max_retries=1]) return and never raise. *)
Theorem counters_in_every_run (steps : list RunStep) (env : Env) (user_message : string)
    (w : World) :
  let s := fst (run_steps build_graph env steps (initial_state user_message) w) in
  counters_nonneg s
  /\ counters_decorated s
  /\ forall env' w',
       (exists v, fst (fst (route_user_message env' s w')) = Returns v)
       /\ (exists v, fst (fst (finish_conversation env' s w')) = Returns v).
Proof.
  assert (Hinv : forall steps s0 w0,
            counters_nonneg s0 /\ counters_decorated s0 ->
            counters_nonneg (fst (run_steps build_graph env steps s0 w0))
            /\ counters_decorated (fst (run_steps build_graph env steps s0 w0))).
  { clear steps w. intros steps. induction steps as [|step rest IH]; intros s0 w0 H0;
      cbn [run_steps]; [exact H0 |].
    pose proof (run_step_counters env step s0 w0 H0) as Hstep.
    destruct (run_step build_graph env step s0 w0) as [s' w']. now apply IH. }
  intros s.
  destruct (Hinv steps (initial_state user_message) w) as [Hn Hd].
  { split.
    - intros name. vm_compute. discriminate.
    - intros name [v Hv]. unfold initial_state, retries_map in Hv. cbn in Hv.
      rewrite lookup_empty in Hv. discriminate. }
  fold s in Hn, Hd. split; [exact Hn |]. split; [exact Hd |].
  intros env' w'. split.
  - apply single_attempt_no_raise; [lia | apply Hn].
  - apply single_attempt_no_raise; [lia | apply Hn].
Qed.

(** ** Each field has one writer *)

Lemma produced_key_scope (name : string) :
  produced_key name = "scope" -> name = "define_scope_with_reasoner".
Proof. unfold produced_key. repeat case_decide; first [discriminate | auto]. Qed.

Lemma produced_key_generated_code (name : string) :
  produced_key name = "generated_code" -> name = "generate_tool_code".
Proof. unfold produced_key. repeat case_decide; first [discriminate | auto]. Qed.

Lemma produced_key_status (name : string) :
  produced_key name = "tool_creation_status" -> name = "finalize_new_tool".
Proof. unfold produced_key. repeat case_decide; first [discriminate | auto]. Qed.

Lemma produced_key_feedback (name : string) :
  produced_key name = "diagnostic_feedback" -> name = "diagnose_errors".
Proof. unfold produced_key. repeat case_decide; first [discriminate | auto]. Qed.

Lemma merge_singleton_payload (s : AgentState) (key : string) (v : Val) :
  (key <> "scope" -> scope (merge_update s {[ key := v ]}) = scope s)
  /\ (key <> "generated_code" ->
      generated_code (merge_update s {[ key := v ]}) = generated_code s)
  /\ (key <> "tool_creation_status" ->
      tool_creation_status (merge_update s {[ key := v ]}) = tool_creation_status s)
  /\ (key <> "diagnostic_feedback" ->
      diagnostic_feedback (merge_update s {[ key := v ]}) = diagnostic_feedback s).
Proof.
  repeat split; intros Hne; unfold merge_update; cbn; now rewrite lookup_singleton_ne.
Qed.

Lemma merge_message_payload (s : AgentState) (message : string) :
  scope (merge_update s {[ "latest_user_message" := VStr message ]}) = scope s
  /\ generated_code (merge_update s {[ "latest_user_message" := VStr message ]})
     = generated_code s
  /\ tool_creation_status (merge_update s {[ "latest_user_message" := VStr message ]})
     = tool_creation_status s
  /\ diagnostic_feedback (merge_update s {[ "latest_user_message" := VStr message ]})
     = diagnostic_feedback s.
Proof. destruct s. repeat split. Qed.

(** The payload after a routing call and the merge of what it returned. *)
Lemma router_step_payload (env : Env) (s : AgentState) (w : World) :
  same_payload s
    (merge_result (fst (fst (route_user_message env s w)))
       (snd (fst (route_user_message env s w)))).
Proof.
  pose proof (wrapper_keeps_payload "route_user_message" 1 route_user_message_func env s w)
    as Hframe.
  fold route_user_message in Hframe.
  destruct (route_user_message_func (ensure_error_fields s) env (history w))
    as [[v|e] h'] eqn:Hfunc; unfold route_user_message in *.
  - rewrite (wrapper_returns _ _ _ _ _ _ _ _ Hfunc) in *. cbn [fst snd] in *.
    unfold route_user_message_func, bind, perform, ret in Hfunc.
    destruct (env (history w) _); [| discriminate].
    injection Hfunc as <- _. exact Hframe.
  - rewrite (wrapper_raises _ _ _ _ _ _ _ _ Hfunc) in *. cbn [fst snd] in *.
    destruct (_ >=? _); cbn [merge_result]; [| exact Hframe].
    unfold reroute_to_diagnose. rewrite merge_reroute. exact Hframe.
Qed.

(** X7: each of [scope], [generated_code], [tool_creation_status] and
    [diagnostic_feedback] is written by one node only: a step of a run that
    is not the execution of [define_scope_with_reasoner] (of
    [generate_tool_code], [finalize_new_tool], [diagnose_errors]) leaves
    the field as it was. *)
Theorem field_has_single_writer (env : Env) (step : RunStep) (s : AgentState) (w : World) :
  (step <> ExecNode "define_scope_with_reasoner" ->
   scope (fst (run_step build_graph env step s w)) = scope s)
  /\ (step <> ExecNode "generate_tool_code" ->
      generated_code (fst (run_step build_graph env step s w)) = generated_code s)
  /\ (step <> ExecNode "finalize_new_tool" ->
      tool_creation_status (fst (run_step build_graph env step s w))
      = tool_creation_status s)
  /\ (step <> ExecNode "diagnose_errors" ->
      diagnostic_feedback (fst (run_step build_graph env step s w))
      = diagnostic_feedback s).
Proof.
  destruct (run_step_shape env step s w)
    as [Heq | [(name & f & Hstep & Hnode & Heq) | [(_ & Heq) | (message & _ & Heq)]]];
    rewrite Heq.
  - repeat split.
  - destruct (f env s w) as [[r s1] w1] eqn:Hf. cbn [fst snd].
    pose proof (graph_node_frame _ _ env s w Hnode) as Hframe.
    rewrite Hf in Hframe. cbn [fst snd] in Hframe.
    destruct Hframe as (_ & _ & Hsc & Hgc & Hst & Hfb).
    destruct r as [r|e]; [| cbn [merge_result]; repeat split; intros; assumption].
    destruct (node_result_dict _ _ _ _ _ _ _ _ Hnode Hf) as [[v ->] | [-> _]];
      cbn [merge_result].
    + destruct (merge_singleton_payload s1 (produced_key name) v) as (M1 & M2 & M3 & M4).
      subst step. repeat split; intros Hne.
      * rewrite M1; [exact Hsc |]. intros Hk. apply produced_key_scope in Hk. congruence.
      * rewrite M2; [exact Hgc |]. intros Hk. apply produced_key_generated_code in Hk.
        congruence.
      * rewrite M3; [exact Hst |]. intros Hk. apply produced_key_status in Hk. congruence.
      * rewrite M4; [exact Hfb |]. intros Hk. apply produced_key_feedback in Hk. congruence.
    + unfold reroute_to_diagnose. rewrite merge_reroute. repeat split; intros; assumption.
  - destruct (router_step_payload env s w) as (_ & _ & Hsc & Hgc & Hst & Hfb).
    repeat split; intros; assumption.
  - destruct (merge_message_payload s message) as (M1 & M2 & M3 & M4).
    repeat split; intros; assumption.
Qed.

Lemma field_has_single_writer_witness :
  diagnostic_feedback
    (fst (run_step build_graph env_down (ExecNode "finish_conversation")
            (initial_state "bye") fresh_world))
  = diagnostic_feedback (initial_state "bye").
Proof.
  apply (proj2 (proj2 (proj2 (field_has_single_writer env_down
           (ExecNode "finish_conversation") (initial_state "bye") fresh_world)))).
  discriminate.
Defined.

(** ** The graph has a node for whatever the routing returns *)

(** X8: the graph is closed under routing.  When the decorated
    [route_user_message] returns, it returns either a label that is a key
    of the conditional mapping of [get_next_user_message], mapped to a node
    of the graph that runs a function, or the reroute, whose target
    [diagnose_errors] is such a node too; and every static edge leads to END
    or to a node of the graph. *)
Theorem routing_is_closed :
  (forall env s w r s1 w1,
     route_user_message env s w = (Returns r, s1, w1) ->
     exists mapping,
       conditional_edges build_graph !! "get_next_user_message"
       = Some (route_user_message, mapping)
       /\ ((exists label target f,
              r = RetLabel label /\ mapping !! label = Some target
              /\ nodes build_graph !! target = Some (Runs f))
           \/ (r = reroute_to_diagnose
               /\ exists f, nodes build_graph !! "diagnose_errors" = Some (Runs f))))
  /\ (forall source target,
        edges build_graph !! source = Some target ->
        target = END \/ is_Some (nodes build_graph !! target)).
Proof.
  split.
  - intros env s w r s1 w1 Hcall. eexists. split; [exact branch_of_get_next_user_message |].
    unfold route_user_message in Hcall.
    destruct (route_user_message_func (ensure_error_fields s) env (history w))
      as [[v|e] h'] eqn:Hfunc.
    + rewrite (wrapper_returns _ _ _ _ _ _ _ _ Hfunc) in Hcall. injection Hcall as <- _ _.
      unfold route_user_message_func, bind, perform, ret in Hfunc.
      destruct (env (history w) _); [| discriminate].
      injection Hfunc as <- _. left.
      destruct (route_label_range (PyStr.lower (latest_user_message (ensure_error_fields s))))
        as [-> | [-> | ->]]; eexists _, _, _; repeat split; reflexivity.
    + rewrite (wrapper_raises _ _ _ _ _ _ _ _ Hfunc) in Hcall.
      destruct (_ >=? _); [| discriminate].
      injection Hcall as <- _ _. right. split; [reflexivity |]. eexists. reflexivity.
  - unfold build_graph. cbn [edges nodes]. intros source target H.
    repeat (rewrite lookup_insert in H; case_decide;
            [ injection H as <-;
              first [ left; reflexivity | right; eexists; reflexivity ]
            | ]).
    rewrite lookup_empty in H. discriminate.
Qed.

Lemma routing_is_closed_witness :
  exists mapping,
    conditional_edges build_graph !! "get_next_user_message"
    = Some (route_user_message, mapping)
    /\ ((exists label target f,
           RetLabel "create_tool" = RetLabel label /\ mapping !! label = Some target
           /\ nodes build_graph !! target = Some (Runs f))
        \/ (RetLabel "create_tool" = reroute_to_diagnose
            /\ exists f, nodes build_graph !! "diagnose_errors" = Some (Runs f))).
Proof.
  eapply (proj1 routing_is_closed env_up (initial_state "a new plugin please") fresh_world).
  reflexivity.
Defined.

(** ** From the generated code to the plugin file *)




(** ** The session map of the server *)

Section ServerProperties.
Context {Graph RunValue GraphState : Type}.
Variable graph_run : Graph -> RunInput -> Res RunValue * Graph.
Variable new_orchestrator : Res Graph.
Variable graph_state : Graph -> Res GraphState.
Variable py_str : RunValue -> string.

(** With an Orchestrator to serve the request, the session holds it
    afterwards in the condition the call left it in, whether the call or the
    reading of the graph state raised or not. *)
Lemma handle_sessions (method : Graph -> string -> Res RunValue * Graph)
    (orchestrators : gmap string Graph) (data : Server.Request) (o : Graph) :
  Server.serving new_orchestrator orchestrators (default "default" (Server.req_session_id data))
  = Returns o ->
  snd (Server.handle new_orchestrator graph_state py_str method orchestrators data)
  = <[default "default" (Server.req_session_id data) :=
        snd (method o (default "" (Server.req_user_message data)))]> orchestrators.
Proof.
  intros Hserving. unfold Server.handle. rewrite Hserving.
  destruct (method o _) as [[v|e] o']; [| reflexivity].
  cbn [snd]. destruct (graph_state o'); reflexivity.
Qed.

(** Without one, the request raises what [Orchestrator()] raised and the
    session map is as before. *)
Lemma handle_not_served (method : Graph -> string -> Res RunValue * Graph)
    (orchestrators : gmap string Graph) (data : Server.Request) (e : Exn) :
  Server.serving new_orchestrator orchestrators (default "default" (Server.req_session_id data))
  = Raises e ->
  Server.handle new_orchestrator graph_state py_str method orchestrators data
  = (Raises e, orchestrators).
Proof.
  intros Hserving. unfold Server.handle. now rewrite Hserving.
Qed.

Lemma handle_other_sessions (method : Graph -> string -> Res RunValue * Graph)
    (orchestrators : gmap string Graph) (data : Server.Request) (other : string) :
  other <> default "default" (Server.req_session_id data) ->
  snd (Server.handle new_orchestrator graph_state py_str method orchestrators data) !! other
  = orchestrators !! other.
Proof.
  intros Hother.
  destruct (Server.serving new_orchestrator orchestrators
              (default "default" (Server.req_session_id data))) as [o|e] eqn:Hserving.
  - rewrite (handle_sessions _ _ _ _ Hserving). now apply lookup_insert_ne.
  - now rewrite (handle_not_served _ _ _ _ Hserving).
Qed.

Lemma serving_after_delete (orchestrators : gmap string Graph) (session_id : string) :
  Server.serving new_orchestrator (delete session_id orchestrators) session_id
  = new_orchestrator.
Proof. unfold Server.serving. now rewrite lookup_delete_eq. Qed.
End ServerProperties.

(** X10: the handlers keep sessions apart.  A /start_flow or /resume_flow
    request changes the entry of its own session id only: the Orchestrator of
    every other session is the one that was there.  When the session has an
    Orchestrator, or [Orchestrator()] builds one, the session is registered
    afterwards, also when the run raised; when [Orchestrator()] raises, the
    request raises that exception and the session map is as before. *)
Theorem sessions_are_isolated {Graph RunValue GraphState : Type}
    (graph_run : Graph -> RunInput -> Res RunValue * Graph)
    (new_orchestrator : Res Graph) (graph_state : Graph -> Res GraphState)
    (py_str : RunValue -> string)
    (orchestrators : gmap string Graph) (data : Server.Request) :
  let session_id := default "default" (Server.req_session_id data) in
  let start :=
    Server.start_flow graph_run new_orchestrator graph_state py_str orchestrators data in
  let resume :=
    Server.resume_flow graph_run new_orchestrator graph_state py_str orchestrators data in
  (forall other, other <> session_id ->
     snd start !! other = orchestrators !! other
     /\ snd resume !! other = orchestrators !! other)
  /\ (forall o, Server.serving new_orchestrator orchestrators session_id = Returns o ->
        is_Some (snd start !! session_id) /\ is_Some (snd resume !! session_id))
  /\ (forall e, Server.serving new_orchestrator orchestrators session_id = Raises e ->
        start = (Raises e, orchestrators) /\ resume = (Raises e, orchestrators)).
Proof.
  intros session_id start resume. subst start resume.
  unfold Server.start_flow, Server.resume_flow. split; [| split].
  - intros other Hne. split; now apply handle_other_sessions.
  - intros o Hserving.
    rewrite (handle_sessions _ _ _ (Orchestrator.start_flow graph_run) _ _ _ Hserving).
    rewrite (handle_sessions _ _ _ (Orchestrator.resume_flow graph_run) _ _ _ Hserving).
    fold session_id. rewrite !lookup_insert_eq. split; eauto.
  - intros e Hserving. split; now apply handle_not_served.
Qed.

Lemma sessions_are_isolated_witness :
  snd (Server.start_flow accepting_run (Returns tt) (fun g => Returns g) (fun v => v)
         {[ "alice" := tt ]} (Server.mkRequest (Some "hi") (Some "bob"))) !! "alice"
  = ({[ "alice" := tt ]} : gmap string unit) !! "alice"
  /\ snd (Server.resume_flow accepting_run (Returns tt) (fun g => Returns g) (fun v => v)
            {[ "alice" := tt ]} (Server.mkRequest (Some "hi") (Some "bob"))) !! "alice"
     = ({[ "alice" := tt ]} : gmap string unit) !! "alice".
Proof.
  apply (proj1 (sessions_are_isolated accepting_run (Returns tt) (fun g => Returns g)
                  (fun v => v) {[ "alice" := tt ]}
                  (Server.mkRequest (Some "hi") (Some "bob")))).
  discriminate.
Defined.

(** X11: /reset_session forgets one session and nothing else.  Afterwards
    the session id has no Orchestrator and the other sessions are as before;
    resetting a session that does not exist changes nothing (and raises
    nothing).  The next /start_flow for the session builds a new
    Orchestrator and runs on it, not on the one that was reset; when
    building it raises, the request raises and the session stays forgotten. *)
Theorem reset_session_forgets {Graph RunValue GraphState : Type}
    (graph_run : Graph -> RunInput -> Res RunValue * Graph)
    (new_orchestrator : Res Graph) (graph_state : Graph -> Res GraphState)
    (py_str : RunValue -> string)
    (orchestrators : gmap string Graph) (data : Server.Request) :
  let session_id := default "default" (Server.req_session_id data) in
  let user_message := default "" (Server.req_user_message data) in
  let next_start :=
    Server.start_flow graph_run new_orchestrator graph_state py_str
      (Server.reset_session orchestrators data) data in
  Server.reset_session orchestrators data !! session_id = None
  /\ (forall other, other <> session_id ->
        Server.reset_session orchestrators data !! other = orchestrators !! other)
  /\ (orchestrators !! session_id = None ->
      Server.reset_session orchestrators data = orchestrators)
  /\ (forall o, new_orchestrator = Returns o ->
        snd next_start !! session_id
        = Some (snd (graph_run o (InState (initial_state user_message)))))
  /\ (forall e, new_orchestrator = Raises e ->
        next_start = (Raises e, Server.reset_session orchestrators data)).
Proof.
  intros session_id user_message next_start. subst next_start.
  unfold Server.reset_session. fold session_id.
  split; [apply lookup_delete_eq |]. split; [| split; [| split]].
  - intros other Hne. now apply lookup_delete_ne.
  - intros Hnone. now apply delete_id.
  - intros o Hnew. unfold Server.start_flow.
    rewrite (handle_sessions _ _ _ _ _ _ o).
    + fold session_id user_message. now rewrite lookup_insert_eq.
    + fold session_id. now rewrite serving_after_delete.
  - intros e Hnew. unfold Server.start_flow. apply handle_not_served.
    fold session_id. now rewrite serving_after_delete.
Qed.

Lemma reset_session_forgets_witness :
  snd (Server.start_flow accepting_run (Returns tt) (fun g => Returns g) (fun v => v)
         (Server.reset_session ({[ "bob" := tt ]} : gmap string unit)
            (Server.mkRequest (Some "hi") (Some "bob")))
         (Server.mkRequest (Some "hi") (Some "bob"))) !! "bob"
  = Some (snd (accepting_run tt (InState (initial_state "hi")))).
Proof.
  apply (proj1 (proj2 (proj2 (proj2
           (reset_session_forgets accepting_run (Returns tt) (fun g => Returns g)
              (fun v => v) {[ "bob" := tt ]} (Server.mkRequest (Some "hi") (Some "bob"))))))).
  reflexivity.
Defined.

(** X12: a session carries its Orchestrator from one request to the next.
    When the session has an Orchestrator, or [Orchestrator()] builds one,
    then after /start_flow and /resume_flow with the same session id the
    session holds that Orchestrator in the condition [graph.run] left it in
    after the initial state and then the second message. *)
Theorem session_threads_orchestrator {Graph RunValue GraphState : Type}
    (graph_run : Graph -> RunInput -> Res RunValue * Graph)
    (new_orchestrator : Res Graph) (graph_state : Graph -> Res GraphState)
    (py_str : RunValue -> string)
    (orchestrators : gmap string Graph) (first second : Server.Request) (o : Graph) :
  let session_id := default "default" (Server.req_session_id first) in
  default "default" (Server.req_session_id second) = session_id ->
  Server.serving new_orchestrator orchestrators session_id = Returns o ->
  let o1 := snd (graph_run o
                   (InState (initial_state (default "" (Server.req_user_message first))))) in
  snd (Server.resume_flow graph_run new_orchestrator graph_state py_str
         (snd (Server.start_flow graph_run new_orchestrator graph_state py_str
                 orchestrators first))
         second) !! session_id
  = Some (snd (graph_run o1 (InMessage (default "" (Server.req_user_message second))))).
Proof.
  intros session_id Hsame Hserving o1.
  unfold Server.start_flow. rewrite (handle_sessions _ _ _ _ _ _ o Hserving).
  fold session_id. unfold Server.resume_flow.
  rewrite (handle_sessions _ _ _ _ _ _ o1).
  - rewrite Hsame. now rewrite lookup_insert_eq.
  - rewrite Hsame. unfold Server.serving. now rewrite lookup_insert_eq.
Qed.

Lemma session_threads_orchestrator_witness :
  snd (Server.resume_flow (fun (g : nat) (x : RunInput) => (Returns "done", S g))
         (Returns 0%nat) (fun g => Returns g) (fun v => v)
         (snd (Server.start_flow (fun (g : nat) (x : RunInput) => (Returns "done", S g))
                 (Returns 0%nat) (fun g => Returns g) (fun v => v) ∅
                 (Server.mkRequest (Some "hi") None)))
         (Server.mkRequest (Some "go on") None)) !! "default"
  = Some 2%nat.
Proof.
  exact (session_threads_orchestrator
           (fun (g : nat) (x : RunInput) => (Returns "done", S g)) (Returns 0%nat)
           (fun g => Returns g) (fun v => v) ∅
           (Server.mkRequest (Some "hi") None) (Server.mkRequest (Some "go on") None)
           0%nat eq_refl eq_refl).
Defined.

(** ** The plugin registry *)

Lemma register_tool_subseteq (tool : Tool) (registry : gmap string Tool) :
  registry ⊆ snd (register_tool tool registry).
Proof.
  unfold register_tool. destruct (registry !! tool_name tool) eqn:Hlook; cbn [snd].
  - reflexivity.
  - now apply insert_subseteq.
Qed.

Section Loader.
Variables (files : PluginFiles) (excluded : list string).
Variables (module_path : string -> string) (select : Member -> option (Res Tool)).

Lemma register_members_subseteq (members : list (string * Member))
    (registry : gmap string Tool) :
  registry ⊆ snd (register_members select members registry).
Proof.
  revert registry. induction members as [|[name obj] rest IH]; intros registry;
    cbn [register_members]; [reflexivity |].
  destruct (select obj) as [[tool|e]|]; [| reflexivity | apply IH].
  pose proof (register_tool_subseteq tool registry) as Hreg.
  destruct (register_tool tool registry) as [[|e] registry1]; cbn [snd] in *.
  - etransitivity; [exact Hreg | apply IH].
  - exact Hreg.
Qed.

Lemma load_files_subseteq (filenames : list string) (registry : gmap string Tool)
    (imported : list string) :
  registry ⊆ snd (fst (load_files files excluded module_path select filenames
                           registry imported)).
Proof.
  revert registry imported. induction filenames as [|filename rest IH];
    intros registry imported; cbn [load_files]; [reflexivity |].
  destruct (negb (PyStr.endswith filename ".py")); [apply IH |].
  destruct (bool_decide (filename ∈ excluded)); [apply IH |].
  destruct (import_module files _) as [members|e]; [| reflexivity].
  pose proof (register_members_subseteq members registry) as Hreg.
  destruct (register_members select members registry) as [[|e] registry1]; cbn [snd] in *.
  - etransitivity; [exact Hreg | apply IH].
  - exact Hreg.
Qed.

(** Running the member loop again on a registry that holds what the first
    run registered: nothing was registered and nothing happens, or the
    first tool found is refused. *)
Lemma register_members_again (members : list (string * Member))
    (registry registry' : gmap string Tool) :
  register_members select members registry = (Done, registry') ->
  forall registry2,
    registry' ⊆ registry2 ->
    (registry' = registry
     /\ register_members select members registry2 = (Done, registry2))
    \/ (exists name,
          is_Some (registry' !! name)
          /\ register_members select members registry2
             = (Raise (already_registered name), registry2)).
Proof.
  revert registry. induction members as [|[name obj] rest IH]; intros registry Hrun
    registry2 Hsub; cbn [register_members] in *.
  - injection Hrun as <-. now left.
  - destruct (select obj) as [[tool|e]|]; [| discriminate | now apply IH].
    unfold register_tool in Hrun. destruct (registry !! tool_name tool) eqn:Hfresh;
      [discriminate |].
    assert (Hin : registry' !! tool_name tool = Some tool).
    { pose proof (register_members_subseteq rest (<[tool_name tool := tool]> registry))
        as Hgrow.
      rewrite Hrun in Hgrow. cbn [snd] in Hgrow.
      eapply lookup_weaken; [apply lookup_insert_eq | exact Hgrow]. }
    right. exists (tool_name tool). split; [eauto |].
    unfold register_tool. now rewrite (lookup_weaken _ _ _ _ Hin Hsub).
Qed.

Lemma load_files_again (filenames : list string) (registry registry' : gmap string Tool)
    (imported imported' : list string) :
  load_files files excluded module_path select filenames registry imported
  = (Done, registry', imported') ->
  forall registry2 imported2,
    registry' ⊆ registry2 ->
    (registry' = registry
     /\ exists imported2',
          load_files files excluded module_path select filenames registry2 imported2
          = (Done, registry2, imported2'))
    \/ (exists name imported2',
          is_Some (registry' !! name)
          /\ load_files files excluded module_path select filenames registry2 imported2
             = (Raise (already_registered name), registry2, imported2')).
Proof.
  revert registry imported. induction filenames as [|filename rest IH];
    intros registry imported Hrun registry2 imported2 Hsub; cbn [load_files] in *.
  - injection Hrun as <- _. left. eauto.
  - destruct (negb (PyStr.endswith filename ".py")); [eapply IH; eassumption |].
    destruct (bool_decide (filename ∈ excluded)); [eapply IH; eassumption |].
    destruct (import_module files _) as [members|e]; [| discriminate].
    destruct (register_members select members registry) as [[|e] registry1] eqn:Hmem;
      [| discriminate].
    assert (Hsub1 : registry1 ⊆ registry2).
    { etransitivity; [| exact Hsub].
      pose proof (load_files_subseteq rest registry1
                    (imported ++ [module_path (PyStr.drop_last 3 filename)])) as Hgrow.
      now rewrite Hrun in Hgrow. }
    destruct (register_members_again _ _ _ Hmem registry2 Hsub1)
      as [[-> ->] | (name & Hname & ->)].
    + eapply IH; eassumption.
    + right. exists name. eexists. split; [| reflexivity].
      destruct Hname as [tool Htool]. exists tool.
      pose proof (load_files_subseteq rest registry1
                    (imported ++ [module_path (PyStr.drop_last 3 filename)])) as Hgrow.
      rewrite Hrun in Hgrow. cbn [fst snd] in Hgrow.
      exact (lookup_weaken _ _ _ _ Htool Hgrow).
Qed.

Lemma load_with_again (plugins_dir : string) (registry registry' : gmap string Tool)
    (imported : list string) :
  load_with files excluded module_path select plugins_dir registry
  = (Done, registry', imported) ->
  registry' <> registry ->
  exists name imported',
    is_Some (registry' !! name)
    /\ load_with files excluded module_path select plugins_dir registry'
       = (Raise (already_registered name), registry', imported').
Proof.
  unfold load_with. destruct (listdir files plugins_dir) as [filenames|e]; [| discriminate].
  intros Hrun Hnew.
  destruct (load_files_again _ _ _ _ _ Hrun registry' []) as [[Heq _] | Hraise];
    [reflexivity | contradiction | exact Hraise].
Qed.

Lemma load_with_subseteq (plugins_dir : string) (registry : gmap string Tool) :
  registry ⊆ snd (fst (load_with files excluded module_path select plugins_dir registry)).
Proof.
  unfold load_with. destruct (listdir files plugins_dir); [| reflexivity].
  apply load_files_subseteq.
Qed.

(** A member loop that finishes has registered every selected member under
    its name, and the name was free before. *)
Lemma register_members_registered (members : list (string * Member))
    (registry registry' : gmap string Tool) :
  register_members select members registry = (Done, registry') ->
  forall member obj tool,
    (member, obj) ∈ members ->
    select obj = Some (Returns tool) ->
    registry' !! tool_name tool = Some tool /\ registry !! tool_name tool = None.
Proof.
  revert registry. induction members as [|[member0 obj0] rest IH];
    intros registry Hrun member obj tool Hin Hsel; cbn [register_members] in Hrun.
  - inversion Hin.
  - apply elem_of_cons in Hin as [Heq | Hin].
    + injection Heq as -> ->. rewrite Hsel in Hrun. unfold register_tool in Hrun.
      destruct (registry !! tool_name tool) eqn:Hfresh; [discriminate |].
      split; [| reflexivity].
      pose proof (register_members_subseteq rest (<[tool_name tool := tool]> registry))
        as Hgrow.
      rewrite Hrun in Hgrow. cbn [snd] in Hgrow.
      eapply lookup_weaken; [apply lookup_insert_eq | exact Hgrow].
    + destruct (select obj0) as [[tool0|e]|]; [| discriminate | eapply IH; eassumption].
      unfold register_tool in Hrun.
      destruct (registry !! tool_name tool0) eqn:Hfresh; [discriminate |].
      destruct (IH _ Hrun _ _ _ Hin Hsel) as [Hreg Hnone]. split; [exact Hreg |].
      destruct (registry !! tool_name tool) as [old|] eqn:Hold; [| reflexivity].
      pose proof (lookup_weaken _ _ _ _ Hold
                  (insert_subseteq registry (tool_name tool0) tool0 Hfresh)) as Hkept.
      rewrite Hkept in Hnone. discriminate.
Qed.

(** Whatever the member loop leaves in the registry was there before or is
    a selected member, stored under its name. *)
Lemma register_members_origin (members : list (string * Member))
    (registry : gmap string Tool) (name : string) (tool : Tool) :
  snd (register_members select members registry) !! name = Some tool ->
  registry !! name = Some tool
  \/ exists member obj,
       (member, obj) ∈ members /\ select obj = Some (Returns tool) /\ tool_name tool = name.
Proof.
  revert registry. induction members as [|[member0 obj0] rest IH]; intros registry Hlook;
    cbn [register_members] in Hlook.
  - now left.
  - destruct (select obj0) as [[tool0|e]|] eqn:Hsel.
    + unfold register_tool in Hlook.
      destruct (registry !! tool_name tool0) eqn:Hfresh; [now left |].
      destruct (IH _ Hlook) as [Hnew | (member & obj & Hin & Hobj & Hname)].
      * apply lookup_insert_Some in Hnew as [[<- <-] | [_ Hold]]; [| now left].
        right. exists member0, obj0. split; [apply list_elem_of_here | now split].
      * right. exists member, obj. split; [now apply list_elem_of_further | now split].
    + now left.
    + destruct (IH _ Hlook) as [Hold | (member & obj & Hin & Hobj & Hname)]; [now left |].
      right. exists member, obj. split; [now apply list_elem_of_further | now split].
Qed.

Lemma plugin_files_cons (filename : string) (rest : list string) :
  plugin_files excluded (filename :: rest)
  = if negb (PyStr.endswith filename ".py") then plugin_files excluded rest
    else if bool_decide (filename ∈ excluded) then plugin_files excluded rest
    else filename :: plugin_files excluded rest.
Proof.
  unfold plugin_files. rewrite filter_cons.
  destruct (PyStr.endswith filename ".py") eqn:Hpy; cbn [negb].
  - case_bool_decide as Hex; case_decide as Hp; try reflexivity.
    + destruct Hp as [_ Hp]. contradiction.
    + exfalso. apply Hp. now split.
  - case_decide as Hp; [| reflexivity]. destruct Hp as [Hp _]. discriminate.
Qed.

Lemma plugin_files_elem (filename : string) (filenames : list string) :
  filename ∈ plugin_files excluded filenames
  <-> filename ∈ filenames /\ PyStr.endswith filename ".py" = true /\ filename ∉ excluded.
Proof.
  clear files module_path select. unfold plugin_files. rewrite list_elem_of_filter. tauto.
Qed.


(** A load that finishes has imported every plugin file and registered
    every selected member of it under a name that was free. *)
Lemma load_files_registered (filenames : list string)
    (registry registry' : gmap string Tool) (imported imported' : list string) :
  load_files files excluded module_path select filenames registry imported
  = (Done, registry', imported') ->
  forall filename,
    filename ∈ plugin_files excluded filenames ->
    exists members,
      import_module files (module_path (PyStr.drop_last 3 filename)) = Returns members
      /\ forall member obj tool,
           (member, obj) ∈ members ->
           select obj = Some (Returns tool) ->
           registry' !! tool_name tool = Some tool /\ registry !! tool_name tool = None.
Proof.
  revert registry imported. induction filenames as [|filename0 rest IH];
    intros registry imported Hrun filename Hin; rewrite ?plugin_files_cons in Hin;
    cbn [load_files] in Hrun.
  - inversion Hin.
  - destruct (negb (PyStr.endswith filename0 ".py")); [eapply IH; eassumption |].
    destruct (bool_decide (filename0 ∈ excluded)); [eapply IH; eassumption |].
    destruct (import_module files (module_path (PyStr.drop_last 3 filename0)))
      as [members0|e] eqn:Himport; [| discriminate].
    destruct (register_members select members0 registry) as [[|e] registry1] eqn:Hmem;
      [| discriminate].
    pose proof (register_members_subseteq members0 registry) as Hgrow0.
    rewrite Hmem in Hgrow0. cbn [snd] in Hgrow0.
    pose proof (load_files_subseteq rest registry1
                  (imported ++ [module_path (PyStr.drop_last 3 filename0)])) as Hgrow.
    rewrite Hrun in Hgrow. cbn [fst snd] in Hgrow.
    apply elem_of_cons in Hin as [-> | Hin].
    + exists members0. split; [exact Himport |]. intros member obj tool Hobj Hsel.
      destruct (register_members_registered _ _ _ Hmem _ _ _ Hobj Hsel) as [Hreg Hnone].
      split; [exact (lookup_weaken _ _ _ _ Hreg Hgrow) | exact Hnone].
    + destruct (IH _ _ Hrun _ Hin) as (members & Hmembers & Hall).
      exists members. split; [exact Hmembers |]. intros member obj tool Hobj Hsel.
      destruct (Hall _ _ _ Hobj Hsel) as [Hreg Hnone]. split; [exact Hreg |].
      destruct (registry !! tool_name tool) as [old|] eqn:Hold; [| reflexivity].
      rewrite (lookup_weaken _ _ _ _ Hold Hgrow0) in Hnone. discriminate.
Qed.

Lemma load_files_origin (filenames : list string) (registry : gmap string Tool)
    (imported : list string) (name : string) (tool : Tool) :
  snd (fst (load_files files excluded module_path select filenames registry imported))
    !! name = Some tool ->
  registry !! name = Some tool
  \/ exists filename members member obj,
       filename ∈ plugin_files excluded filenames
       /\ import_module files (module_path (PyStr.drop_last 3 filename)) = Returns members
       /\ (member, obj) ∈ members
       /\ select obj = Some (Returns tool)
       /\ tool_name tool = name.
Proof.
  revert registry imported. induction filenames as [|filename0 rest IH];
    intros registry imported Hlook; rewrite ?plugin_files_cons; cbn [load_files] in Hlook.
  - now left.
  - destruct (negb (PyStr.endswith filename0 ".py")); [eapply IH; eassumption |].
    destruct (bool_decide (filename0 ∈ excluded)); [eapply IH; eassumption |].
    assert (Hrest : forall registry1 imported1,
      snd (fst (load_files files excluded module_path select rest registry1 imported1))
        !! name = Some tool ->
      registry1 !! name = Some tool
      \/ exists filename members member obj,
           filename ∈ filename0 :: plugin_files excluded rest
           /\ import_module files (module_path (PyStr.drop_last 3 filename)) = Returns members
           /\ (member, obj) ∈ members
           /\ select obj = Some (Returns tool)
           /\ tool_name tool = name).
    { intros registry1 imported1 Hlook1.
      destruct (IH _ _ Hlook1) as [Hold | (filename & members & member & obj & Hin & Hrest)];
        [now left |].
      right. exists filename, members, member, obj.
      split; [now apply list_elem_of_further | exact Hrest]. }
    destruct (import_module files (module_path (PyStr.drop_last 3 filename0)))
      as [members0|e] eqn:Himport; [| now left].
    assert (Hhere : forall registry1,
      snd (register_members select members0 registry) = registry1 ->
      registry1 !! name = Some tool ->
      registry !! name = Some tool
      \/ exists filename members member obj,
           filename ∈ filename0 :: plugin_files excluded rest
           /\ import_module files (module_path (PyStr.drop_last 3 filename)) = Returns members
           /\ (member, obj) ∈ members
           /\ select obj = Some (Returns tool)
           /\ tool_name tool = name).
    { intros registry1 <- Hlook1.
      destruct (register_members_origin _ _ _ _ Hlook1)
        as [Hold | (member & obj & Hin & Hsel & Hname)]; [now left |].
      right. exists filename0, members0, member, obj.
      split; [apply list_elem_of_here | now repeat split]. }
    destruct (register_members select members0 registry) as [[|e] registry1] eqn:Hmem;
      cbn [fst snd] in *.
    + destruct (Hrest _ _ Hlook) as [Hmid | Hfound]; [| now right].
      now apply (Hhere registry1).
    + now apply (Hhere registry1).
Qed.


Lemma load_with_registered (plugins_dir : string) (registry registry' : gmap string Tool)
    (imported : list string) (filenames : list string) :
  listdir files plugins_dir = Returns filenames ->
  load_with files excluded module_path select plugins_dir registry
  = (Done, registry', imported) ->
  forall filename,
    filename ∈ plugin_files excluded filenames ->
    exists members,
      import_module files (module_path (PyStr.drop_last 3 filename)) = Returns members
      /\ forall member obj tool,
           (member, obj) ∈ members ->
           select obj = Some (Returns tool) ->
           registry' !! tool_name tool = Some tool /\ registry !! tool_name tool = None.
Proof.
  intros Hdir. unfold load_with. rewrite Hdir. apply load_files_registered.
Qed.

Lemma load_with_origin (plugins_dir : string) (registry : gmap string Tool)
    (name : string) (tool : Tool) :
  snd (fst (load_with files excluded module_path select plugins_dir registry)) !! name
  = Some tool ->
  registry !! name = Some tool
  \/ exists filenames filename members member obj,
       listdir files plugins_dir = Returns filenames
       /\ filename ∈ plugin_files excluded filenames
       /\ import_module files (module_path (PyStr.drop_last 3 filename)) = Returns members
       /\ (member, obj) ∈ members
       /\ select obj = Some (Returns tool)
       /\ tool_name tool = name.
Proof.
  unfold load_with. destruct (listdir files plugins_dir) as [filenames|e]; [| now left].
  intros Hlook.
  destruct (load_files_origin _ _ _ _ _ Hlook) as [Hold | (filename & Hfound)];
    [now left |].
  right. exists filenames, filename.
  destruct Hfound as (members & member & obj & Hfound). exists members, member, obj.
  split; [reflexivity | exact Hfound].
Qed.

End Loader.

Lemma load_plugins_of_unfold (copy : Copy) (files : PluginFiles) (plugins_dir : string)
    (registry : gmap string Tool) :
  load_plugins_of copy files plugins_dir registry
  = load_with files (excluded_of copy) (module_path_of copy plugins_dir) (select_of copy)
      plugins_dir registry.
Proof.
  now destruct copy.
Qed.




(** The newer copy registers no tool whose name is empty. *)
Lemma agentic_select_named (obj : Member) (tool : Tool) :
  AgenticPlugins.select obj = Some (Returns tool) -> tool_name tool <> "".
Proof.
  unfold AgenticPlugins.select.
  destruct (isclass obj || isfunction obj); [| discriminate].
  destruct (has_name obj && has_description obj && has_run obj); [| discriminate].
  destruct (if isclass obj then construct obj else Returns (itself obj)) as [made|e];
    [| discriminate].
  destruct (PyStr.truthy (tool_name made)) eqn:Hname; cbn [negb]; [| discriminate].
  intros Hsel Hempty. injection Hsel as <-. rewrite Hempty in Hname. discriminate.
Qed.

(** X13: a tool that [get_tool_by_name] finds stays in the registry, under
    the same name and unchanged: [register_tool] of any tool keeps it, and
    so does [load_plugins] of either copy, whether it finishes or raises. *)
Theorem registry_only_grows (copy : Copy) (files : PluginFiles) (plugins_dir : string)
    (registry : gmap string Tool) (name : string) (tool : Tool) :
  get_tool_by_name name registry = Some tool ->
  (forall other, get_tool_by_name name (snd (register_tool other registry)) = Some tool)
  /\ get_tool_by_name name (snd (fst (load_plugins_of copy files plugins_dir registry)))
     = Some tool.
Proof.
  unfold get_tool_by_name. intros Hfound. split.
  - intros other.
    exact (lookup_weaken _ _ _ _ Hfound (register_tool_subseteq other registry)).
  - rewrite load_plugins_of_unfold.
    exact (lookup_weaken _ _ _ _ Hfound (load_with_subseteq _ _ _ _ _ _)).
Qed.

Lemma registry_only_grows_witness :
  (forall other,
     get_tool_by_name "echo_tool" (snd (register_tool other {[ "echo_tool" := echo_tool ]}))
     = Some echo_tool)
  /\ get_tool_by_name "echo_tool"
       (snd (fst (load_plugins_of ZippyArchon sample_files "plugins"
                    {[ "echo_tool" := echo_tool ]})))
     = Some echo_tool.
Proof.
  apply (registry_only_grows ZippyArchon sample_files "plugins"
           {[ "echo_tool" := echo_tool ]} "echo_tool" echo_tool).
  vm_compute. reflexivity.
Defined.



(** X15: [load_plugins] cannot be repeated.  After a load that finished and
    registered at least one tool, a second load of the same directory (the
    listing, the modules and the constructors answering as before) raises
    ValueError "Tool '<name>' is already registered." for a name of the
    registry, and leaves the registry as it was.  [finalize_new_tool] calls
    [load_plugins("plugins")] each time it writes a plugin. *)
Theorem second_load_is_refused (copy : Copy) (files : PluginFiles) (plugins_dir : string)
    (registry registry' : gmap string Tool) (imported : list string) :
  load_plugins_of copy files plugins_dir registry = (Done, registry', imported) ->
  registry' <> registry ->
  exists name imported',
    is_Some (get_tool_by_name name registry')
    /\ load_plugins_of copy files plugins_dir registry'
       = (Raise (already_registered name), registry', imported').
Proof.
  rewrite !load_plugins_of_unfold. intros Hfirst Hnew.
  destruct (load_with_again files (excluded_of copy) (module_path_of copy plugins_dir)
              (select_of copy) plugins_dir registry registry' imported Hfirst Hnew)
    as (name & imported' & Hname & Hsecond).
  exists name, imported'. split; [exact Hname | exact Hsecond].
Qed.

Lemma second_load_is_refused_witness :
  exists name imported',
    is_Some (get_tool_by_name name (<[ "echo_tool" := echo_tool ]> ∅))
    /\ load_plugins_of ZippyArchon sample_files "plugins" (<[ "echo_tool" := echo_tool ]> ∅)
       = (Raise (already_registered name), <[ "echo_tool" := echo_tool ]> ∅, imported').
Proof.
  apply (second_load_is_refused ZippyArchon sample_files "plugins" ∅
           (<[ "echo_tool" := echo_tool ]> ∅) ["plugins.tool_example"]).
  - vm_compute. reflexivity.
  - apply insert_non_empty.
Defined.

(** X16: a load that finishes has imported every plugin file of the
    listing, and every member the copy selects is then found by
    [get_tool_by_name] under its name; none of these names was in the
    registry before the load. *)
Theorem finished_load_registers_every_tool (copy : Copy) (files : PluginFiles)
    (plugins_dir : string) (registry registry' : gmap string Tool)
    (imported filenames : list string) (filename : string) :
  listdir files plugins_dir = Returns filenames ->
  load_plugins_of copy files plugins_dir registry = (Done, registry', imported) ->
  filename ∈ plugin_files (excluded_of copy) filenames ->
  exists members,
    import_module files (module_path_of copy plugins_dir (PyStr.drop_last 3 filename))
    = Returns members
    /\ forall member obj tool,
         (member, obj) ∈ members ->
         select_of copy obj = Some (Returns tool) ->
         get_tool_by_name (tool_name tool) registry' = Some tool
         /\ get_tool_by_name (tool_name tool) registry = None.
Proof.
  rewrite load_plugins_of_unfold. unfold get_tool_by_name. intros Hdir Hrun Hfile.
  destruct (load_with_registered files (excluded_of copy) (module_path_of copy plugins_dir)
              (select_of copy) plugins_dir registry registry' imported filenames
              Hdir Hrun filename Hfile) as (members & Himport & Hall).
  exists members. split; [exact Himport | exact Hall].
Qed.

Lemma finished_load_registers_every_tool_witness :
  exists members,
    import_module sample_files
      (module_path_of ZippyArchon "plugins" (PyStr.drop_last 3 "tool_example.py"))
    = Returns members
    /\ forall member obj tool,
         (member, obj) ∈ members ->
         select_of ZippyArchon obj = Some (Returns tool) ->
         get_tool_by_name (tool_name tool) (<[ "echo_tool" := echo_tool ]> ∅) = Some tool
         /\ get_tool_by_name (tool_name tool) ∅ = None.
Proof.
  apply (finished_load_registers_every_tool ZippyArchon sample_files "plugins" ∅
           (<[ "echo_tool" := echo_tool ]> ∅) ["plugins.tool_example"]
           ["__init__.py"; "notes.txt"; "plugin_manager.py"; "tool_example.py"]
           "tool_example.py").
  - reflexivity.
  - vm_compute. reflexivity.
  - apply plugin_files_elem. split; [apply list_elem_of_In; simpl; tauto |].
    split; [reflexivity |]. intros Hin. apply list_elem_of_In in Hin. simpl in Hin.
    destruct Hin as [Heq | [Heq | []]]; discriminate.
Defined.

(** X17: [load_plugins] registers nothing but selected members of plugin
    files: a tool found after the load was in the registry before, or is
    what the copy selects from a member of an imported plugin file, stored
    under its own name. *)
Theorem registered_tools_come_from_plugins (copy : Copy) (files : PluginFiles)
    (plugins_dir : string) (registry : gmap string Tool) (name : string) (tool : Tool) :
  get_tool_by_name name (snd (fst (load_plugins_of copy files plugins_dir registry)))
  = Some tool ->
  get_tool_by_name name registry = Some tool
  \/ exists filenames filename members member obj,
       listdir files plugins_dir = Returns filenames
       /\ filename ∈ plugin_files (excluded_of copy) filenames
       /\ import_module files (module_path_of copy plugins_dir (PyStr.drop_last 3 filename))
          = Returns members
       /\ (member, obj) ∈ members
       /\ select_of copy obj = Some (Returns tool)
       /\ tool_name tool = name.
Proof.
  rewrite load_plugins_of_unfold. unfold get_tool_by_name. intros Hfound.
  destruct (load_with_origin _ _ _ _ _ _ _ _ Hfound) as [Hold | Hnew].
  - left. exact Hold.
  - right. exact Hnew.
Qed.

Lemma registered_tools_come_from_plugins_witness :
  get_tool_by_name "echo_tool" ∅ = Some echo_tool
  \/ exists filenames filename members member obj,
       listdir sample_files "plugins" = Returns filenames
       /\ filename ∈ plugin_files (excluded_of ZippyArchon) filenames
       /\ import_module sample_files
            (module_path_of ZippyArchon "plugins" (PyStr.drop_last 3 filename))
          = Returns members
       /\ (member, obj) ∈ members
       /\ select_of ZippyArchon obj = Some (Returns echo_tool)
       /\ tool_name echo_tool = "echo_tool".
Proof.
  apply (registered_tools_come_from_plugins ZippyArchon sample_files "plugins" ∅
           "echo_tool" echo_tool).
  vm_compute. reflexivity.
Defined.

(** X18: the registry is keyed by the tools' names.  This holds of the
    empty registry and is kept by [register_tool] and by [load_plugins] of
    either copy, so [get_tool_by_name name] returns a tool whose [name] is
    [name]. *)
Theorem registry_keyed_by_name :
  keyed_by_name ∅
  /\ (forall tool registry,
        keyed_by_name registry -> keyed_by_name (snd (register_tool tool registry)))
  /\ (forall copy files plugins_dir registry,
        keyed_by_name registry ->
        keyed_by_name (snd (fst (load_plugins_of copy files plugins_dir registry)))).
Proof.
  unfold keyed_by_name, get_tool_by_name. split; [| split].
  - intros name tool Hfound. rewrite lookup_empty in Hfound. discriminate.
  - intros tool registry Hkeyed name found. unfold register_tool.
    destruct (registry !! tool_name tool) eqn:Htaken; cbn [snd]; [apply Hkeyed |].
    intros Hfound. apply lookup_insert_Some in Hfound as [[<- <-] | [_ Hold]];
      [reflexivity | now apply Hkeyed].
  - intros copy files plugins_dir registry Hkeyed name found.
    rewrite load_plugins_of_unfold. intros Hfound.
    destruct (load_with_origin _ _ _ _ _ _ _ _ Hfound)
      as [Hold | (filenames & filename & members & member & obj & Hnew)].
    + now apply Hkeyed.
    + apply Hnew.
Qed.

Lemma registry_keyed_by_name_witness :
  keyed_by_name (snd (fst (load_plugins_of AgenticWorkflow sample_files "plugins" ∅))).
Proof.
  apply (proj2 (proj2 registry_keyed_by_name) AgenticWorkflow sample_files "plugins" ∅).
  intros name tool Hfound. unfold get_tool_by_name in Hfound.
  rewrite lookup_empty in Hfound. discriminate.
Defined.

(** X19: the copy of agentic-workflow registers no tool under the empty
    name: if [get_tool_by_name("")] finds nothing before [load_plugins], it
    finds nothing after it.  The copy of iterations/zippy-archon has no such
    check: a class with the attributes [name] and [run] and an empty [name]
    is registered under the empty name. *)
Theorem agentic_load_skips_unnamed_tools (files : PluginFiles) (plugins_dir : string)
    (registry : gmap string Tool) :
  get_tool_by_name "" registry = None ->
  get_tool_by_name ""
    (snd (fst (AgenticPlugins.load_plugins files plugins_dir registry))) = None
  /\ get_tool_by_name ""
       (snd (fst (ZippyArchonPlugins.load_plugins unnamed_files plugins_dir registry)))
     = Some unnamed_tool.
Proof.
  unfold get_tool_by_name. intros Hfree. split.
  - destruct (snd (fst (AgenticPlugins.load_plugins files plugins_dir registry)) !! "")
      as [tool|] eqn:Hfound; [| reflexivity].
    unfold AgenticPlugins.load_plugins in Hfound.
    destruct (load_with_origin _ _ _ _ _ _ _ _ Hfound)
      as [Hold | (filenames & filename & members & member & obj & Hnew)].
    + rewrite Hfree in Hold. discriminate.
    + destruct Hnew as (_ & _ & _ & _ & Hsel & Hname).
      now destruct (agentic_select_named _ _ Hsel).
  - unfold ZippyArchonPlugins.load_plugins, load_with. cbn [listdir unnamed_files].
    cbn [load_files PyStr.endswith String.eqb Ascii.eqb Bool.eqb negb].
    rewrite bool_decide_eq_false_2.
    + cbn [import_module unnamed_files register_members ZippyArchonPlugins.select
           has_name has_run isclass construct andb].
      unfold register_tool. cbn [tool_name unnamed_tool]. rewrite Hfree.
      cbn [fst snd]. apply lookup_insert_eq.
    + intros Hin. apply list_elem_of_In in Hin. simpl in Hin.
      destruct Hin as [Heq | [Heq | []]]; discriminate.
Qed.

Lemma agentic_load_skips_unnamed_tools_witness :
  get_tool_by_name "" (snd (fst (AgenticPlugins.load_plugins unnamed_files "plugins" ∅)))
  = None
  /\ get_tool_by_name ""
       (snd (fst (ZippyArchonPlugins.load_plugins unnamed_files "plugins" ∅)))
     = Some unnamed_tool.
Proof.
  apply (agentic_load_skips_unnamed_tools unnamed_files "plugins" ∅).
  reflexivity.
Defined.
